(** * Obstacle-warning loop: audio gateway, vision gateway, decision engine

    A shallow embedding of [audio.py], [vision.py], [integration.py] and
    [main.py].  Python values that the code inspects are a small inductive
    type; dictionaries are [gmap string _]; a call that may raise returns an
    [outcome]; the calls into the third-party engines (PyAudio, Vosk,
    pyttsx3, OpenCV, SNPE, [time.sleep]) read their answer from a
    per-iteration script and append an event to a trace.  Calls to the
    [logging] module are left out: they have no effect on control flow.
    Floats are the rationals they denote; where the code compares a float32
    array element with a Python float, the conversion to float32 that NumPy
    makes first is written out. *)

From Stdlib Require Import ZArith QArith Qround String List Bool Lia Lqa.
From Stdlib Require Import Permutation Sorted.
From stdpp Require Import gmap strings list fin_maps.

Local Open Scope Z_scope.
Local Open Scope string_scope.
Local Open Scope list_scope.

(** ** Python values and exceptions *)

(** The values the code looks into: [None], [bool], [int], finite [float]s
    (as the rational they denote), [str] and sequences. *)
#[warnings="-register-all"]
Inductive pyval : Type :=
| PyNone
| PyBool (b : bool)
| PyInt (z : Z)
| PyFloat (q : Q)
| PyStr (s : string)
| PyList (l : list pyval).

(** An element of a list handed to the decision engine: a [dict] with
    string keys, or any other object (which has no [get] method). *)
Inductive pyobj : Type :=
| PyDict (d : gmap string pyval)
| PyOther (v : pyval).

(** The result of a call: a value, an exception derived from [Exception]
    (with the name of its class), or [KeyboardInterrupt], which derives from
    [BaseException] and passes through every [except Exception]. *)
Inductive outcome (A : Type) : Type :=
| Ret (a : A)
| Exc (e : string)
| Intr.
Arguments Ret {A} a.
Arguments Exc {A} e.
Arguments Intr {A}.

Definition obind {A B} (o : outcome A) (k : A -> outcome B) : outcome B :=
  match o with
  | Ret a => k a
  | Exc e => Exc e
  | Intr => Intr
  end.

(** [try: body; except Exception as e: handler e] *)
Definition except_Exception {A} (body : outcome A) (handler : string -> outcome A)
  : outcome A :=
  match body with
  | Exc e => handler e
  | o => o
  end.

(** [any(f(x) for x in l)]: the generator is consumed from the left and
    [any] stops at the first true element. *)
Fixpoint py_any {A} (f : A -> outcome bool) (l : list A) : outcome bool :=
  match l with
  | [] => Ret false
  | x :: l' =>
      match f x with
      | Ret true => Ret true
      | Ret false => py_any f l'
      | Exc e => Exc e
      | Intr => Intr
      end
  end.

(** [v == k] for an [int] [k]: Python compares numbers by value across
    [bool], [int] and [float]; every other value differs from an [int]. *)
Definition py_eq_int (v : pyval) (k : Z) : bool :=
  match v with
  | PyBool b => Z.eqb (Z.b2z b) k
  | PyInt z => Z.eqb z k
  | PyFloat q => Qeq_bool q (inject_Z k)
  | _ => false
  end.

(** [v in l] for a list of [int]s. *)
Definition py_in (v : pyval) (l : list Z) : bool := existsb (py_eq_int v) l.

(** [o.get(key, dflt)]: [dflt] when the key is absent, [AttributeError]
    when [o] is not a dictionary.  [o.get(key)] is [o.get(key, None)]. *)
Definition py_get (o : pyobj) (key : string) (dflt : pyval) : outcome pyval :=
  match o with
  | PyDict d => Ret (default dflt (d !! key))
  | PyOther _ => Exc "AttributeError"
  end.

(** ** integration.py *)

Module DecisionEngine.

Record t : Type := { obstacle_classes : list Z }.

(** [__init__(self, obstacle_classes=None)] *)
Definition init (obstacle_classes : option (list Z)) : t :=
  {| obstacle_classes := default [1; 2; 3] obstacle_classes |}.

Definition warning_message : string := "Warning: Obstacle ahead!".

(** The body of the [try] block of [process_inputs]. *)
Definition process_inputs_body (self : t) (audio_text : pyval)
    (detection_results : list pyobj) : outcome string :=
  obind
    (py_any
       (fun detection =>
          obind (py_get detection "class" PyNone)
                (fun c => Ret (py_in c (obstacle_classes self))))
       detection_results)
    (fun obstacle_detected =>
       if obstacle_detected then Ret warning_message else Ret "").

Definition process_inputs (self : t) (audio_text : pyval)
    (detection_results : list pyobj) : outcome string :=
  except_Exception
    (process_inputs_body self audio_text detection_results)
    (fun _ => Ret "").

End DecisionEngine.

(** ** The engines behind the gateways *)

Definition bytes : Type := list Byte.byte.

(** A camera frame: rows of pixels, each pixel a list of 8-bit channels. *)
Definition frame : Type := list (list (list Z)).

(** The input tensor: a batch of frames with channels scaled to [[0,1]]. *)
Definition tensor : Type := list (list (list (list Q))).

(** What [run_inference] returns: a dictionary in which each of the three
    arrays may be missing.  The arrays are float32 arrays and hold finite
    numbers (no NaN, no infinity), each given by the rational it denotes. *)
Record outputs : Type := {
  detection_boxes : option (list (list Q));
  detection_classes : option (list Q);
  detection_scores : option (list Q)
}.

(** The scripted answer of an engine to one call: a value, or an exception
    derived from [Exception]. *)
Inductive answer (A : Type) : Type :=
| Ok (a : A)
| Raise (e : string).
Arguments Ok {A} a.
Arguments Raise {A} e.

(** The answers of the engines during one iteration of the loop.  Every
    engine method is called at most once per iteration. *)
Record script : Type := {
  stream_read : answer bytes;           (* self.stream.read(...) *)
  AcceptWaveform : answer bool;         (* self.recognizer.AcceptWaveform(...) *)
  Result : answer pyobj;                (* json.loads(self.recognizer.Result()) *)
  engine_say : answer unit;             (* self.engine.say(text) *)
  engine_runAndWait : answer unit;      (* self.engine.runAndWait() *)
  cap_read : answer (option frame);     (* self.cap.read(): None for ret = False *)
  cv2_resize : answer frame;            (* cv2.resize(frame, (width, height)) *)
  run_inference : answer outputs        (* self.snpe.run_inference(input_tensor) *)
}.

(** The answers of the engines at start-up and at shutdown. *)
Record lifecycle : Type := {
  AudioProcessor_init : answer unit;
  VisionProcessor_init : answer (list nat);   (* the model's input shape *)
  stop_stream : answer unit;
  stream_close : answer unit;
  pyaudio_terminate : answer unit;
  cap_release : answer unit
}.

Inductive gateway_method : Type :=
| m_capture_audio
| m_process_stt (audio_data : bytes)
| m_speak (text : string)
| m_audio_close
| m_capture_frame
| m_detect_objects
| m_vision_close
| m_process_inputs.

Inductive engine_method : Type :=
| e_stream_read (chunk_size : Z)
| e_AcceptWaveform (audio_data : bytes)
| e_Result
| e_say (text : string)
| e_runAndWait
| e_stop_stream
| e_stream_close
| e_terminate
| e_cap_read
| e_resize (width height : nat)
| e_run_inference
| e_cap_release
| e_sleep (seconds : Q).

(** What an observer of the process sees: entries into gateway methods and
    calls into the engines, in order. *)
Inductive event : Type :=
| Enter (m : gateway_method)
| Call (c : engine_method).

(** The state threaded through the program: the events so far (oldest
    first) and the number of engine calls that still return before the
    user's interrupt arrives ([None]: no interrupt is pending). *)
Record state : Type := {
  trace : list event;
  pending : option nat
}.

Definition M (A : Type) : Type := state -> outcome A * state.

Definition ret {A} (a : A) : M A := fun st => (Ret a, st).

Definition raise {A} (e : string) : M A := fun st => (Exc e, st).

Definition bind {A B} (c : M A) (k : A -> M B) : M B :=
  fun st =>
    match c st with
    | (Ret a, st') => k a st'
    | (Exc e, st') => (Exc e, st')
    | (Intr, st') => (Intr, st')
    end.

Declare Scope py_scope.
Delimit Scope py_scope with py.
Notation "x <- c ;; k" := (bind c (fun x => k))
  (at level 100, c at next level, right associativity) : py_scope.
Notation "c ;;; k" := (bind c (fun _ => k))
  (at level 100, right associativity) : py_scope.
Local Open Scope py_scope.

(** [try: body; except Exception: handler] in the monad: the handler runs
    in the state the body left; an interrupt is not caught. *)
Definition try_except {A} (body : M A) (handler : string -> M A) : M A :=
  fun st =>
    match body st with
    | (Exc e, st') => handler e st'
    | r => r
    end.

Definition lift {A} (o : outcome A) : M A := fun st => (o, st).

Definition log (e : event) : M unit :=
  fun st => (Ret tt, {| trace := trace st ++ [e]; pending := pending st |}).

(** One call into an engine.  The call is recorded; if the interrupt is due
    it is delivered here (once), otherwise the engine's answer comes back. *)
Definition call {A} (c : engine_method) (a : answer A) : M A :=
  fun st =>
    let tr := trace st ++ [Call c] in
    match pending st with
    | Some O => (Intr, {| trace := tr; pending := None |})
    | Some (S k) =>
        (match a with Ok v => Ret v | Raise e => Exc e end,
         {| trace := tr; pending := Some k |})
    | None =>
        (match a with Ok v => Ret v | Raise e => Exc e end,
         {| trace := tr; pending := None |})
    end.

(** [l[i]] for [0 <= i]. *)
Definition py_index {A} (l : list A) (i : nat) : outcome A :=
  match l !! i with
  | Some x => Ret x
  | None => Exc "IndexError"
  end.

(** [int(x)] for a finite float: truncation toward zero.  ([int] raises on
    NaN and on an infinity, which the arrays of [outputs] do not hold.) *)
Definition py_int (x : Q) : Z := Z.quot (Qnum x) (Zpos (Qden x)).

(** [float(x)] for a finite float: every float32 is a double, so the value
    is kept. *)
Definition py_float (x : Q) : Q := x.

(** ** float32 *)

(** What a number becomes when it is converted to float32: a finite
    float32 or an infinity. *)
Inductive float32 : Type :=
| f32_neg_inf
| f32_finite (q : Q)
| f32_inf.

(** The nearest integer, a tie going to the even one. *)
Definition round_half_even (x : Q) : Z :=
  let f := Qfloor x in
  match (x - inject_Z f ?= 1 # 2)%Q with
  | Lt => f
  | Eq => if Z.even f then f else f + 1
  | Gt => f + 1
  end.

(** The float32 nearest to [x >= 0], in units of [2^-149] (the smallest
    positive float32).  In these units the finite float32 numbers are the
    integers below [2^277] with at most 24 significant bits: [shift] is the
    number of low bits that the significand of [x] cannot hold. *)
Definition float32_magnitude (x : Q) : Z :=
  let scaled := (x * inject_Z (2 ^ 149))%Q in
  let shift := Z.max 0 (Z.log2 (Qfloor scaled) - 23) in
  round_half_even (scaled / inject_Z (2 ^ shift)) * 2 ^ shift.

(** Back from units of [2^-149]; [None] when the rounded number is beyond
    the largest float32. *)
Definition float32_of_magnitude (n : Z) : option Q :=
  if (2 ^ 277 <=? n)%Z then None
  else Some (Qred (inject_Z n / inject_Z (2 ^ 149))).

(** [np.float32(x)] for a finite [x]: round to nearest, ties to even;
    overflow gives an infinity. *)
Definition np_float32 (x : Q) : float32 :=
  if Qle_bool 0 x then
    match float32_of_magnitude (float32_magnitude x) with
    | Some q => f32_finite q
    | None => f32_inf
    end
  else
    match float32_of_magnitude (float32_magnitude (- x)) with
    | Some q => f32_finite (- q)
    | None => f32_neg_inf
    end.

(** [x >= y] for a finite [x]. *)
Definition float32_ge (x : Q) (y : float32) : bool :=
  match y with
  | f32_neg_inf => true
  | f32_finite q => Qle_bool q x
  | f32_inf => false
  end.

(** [x >= y] for an element [x] of a float32 array and a Python float [y]:
    NumPy (from version 2 on) converts [y] to the type of [x] and compares
    there. *)
Definition np_ge (x y : Q) : bool := float32_ge x (np_float32 y).

(** ** audio.py *)

Module AudioProcessor.

Record t : Type := { rate : Z; chunk_size : Z }.

Definition capture_audio (self : t) (s : script) : M bytes :=
  log (Enter m_capture_audio) ;;;
  try_except
    (data <- call (e_stream_read (chunk_size self)) (stream_read s) ;;
     ret data)
    (fun _ => ret []).

Definition process_stt (self : t) (s : script) (audio_data : bytes) : M pyval :=
  log (Enter (m_process_stt audio_data)) ;;;
  match audio_data with
  | [] => ret (PyStr "")
  | _ :: _ =>
      try_except
        (final <- call (e_AcceptWaveform audio_data) (AcceptWaveform s) ;;
         if final : bool then
           result <- call e_Result (Result s) ;;
           text <- lift (py_get result "text" (PyStr "")) ;;
           ret text
         else ret (PyStr ""))
        (fun _ => ret (PyStr ""))
  end.

Definition speak (self : t) (s : script) (text : string) : M unit :=
  log (Enter (m_speak text)) ;;;
  if String.eqb text "" then ret tt
  else
    try_except
      (call (e_say text) (engine_say s) ;;;
       call e_runAndWait (engine_runAndWait s) ;;;
       ret tt)
      (fun _ => ret tt).

(** After a successful [__init__] neither [self.stream] nor
    [self.pyaudio_instance] is [None]. *)
Definition close (self : t) (l : lifecycle) : M unit :=
  log (Enter m_audio_close) ;;;
  try_except
    (call e_stop_stream (stop_stream l) ;;;
     call e_stream_close (stream_close l) ;;;
     call e_terminate (pyaudio_terminate l) ;;;
     ret tt)
    (fun _ => ret tt).

End AudioProcessor.

(** ** vision.py *)

Module VisionProcessor.

Record t : Type := { camera_index : nat; input_shape : list nat }.

Definition capture_frame (self : t) (s : script) : M (option frame) :=
  log (Enter m_capture_frame) ;;;
  r <- call e_cap_read (cap_read s) ;;
  match r with
  | None => ret None
  | Some frame => ret (Some frame)
  end.

Definition preprocess_frame (self : t) (s : script) (frame : frame) : M tensor :=
  try_except
    (match input_shape self with
     | [_; height; width; _] =>
         frame_resized <- call (e_resize width height) (cv2_resize s) ;;
         let frame_normalized :=
           map (map (map (fun p => Qdiv (inject_Z p) (inject_Z 255))))
               frame_resized in
         ret [frame_normalized]
     | _ => raise "ValueError"
     end)
    (fun e => raise e).

(** The dictionary literal built for index [i]. *)
Definition detection (box : list Q) (class : Z) (score : Q) : gmap string pyval :=
  <["box" := PyList (map PyFloat box)]>
    (<["class" := PyInt class]>
       (<["score" := PyFloat score]> ∅)).

(** [for i in range(len(scores)): ...] with [detections] as accumulator. *)
Fixpoint detect_loop (boxes : list (list Q)) (classes scores : list Q)
    (score_threshold : Q) (range : list nat)
    (detections : list (gmap string pyval))
  : outcome (list (gmap string pyval)) :=
  match range with
  | [] => Ret detections
  | i :: range' =>
      obind (py_index scores i) (fun s_i =>
      if np_ge s_i score_threshold then
        obind (py_index boxes i) (fun b_i =>
        obind (py_index classes i) (fun c_i =>
        obind (py_index scores i) (fun s_i' =>
        detect_loop boxes classes scores score_threshold range'
          (detections ++ [detection b_i (py_int c_i) (py_float s_i')]))))
      else
        detect_loop boxes classes scores score_threshold range' detections)
  end.

(** The part of [detect_objects] after inference. *)
Definition collect (out : outputs) (score_threshold : Q)
  : outcome (list (gmap string pyval)) :=
  let boxes := default [] (detection_boxes out) in
  let classes := default [] (detection_classes out) in
  let scores := default [] (detection_scores out) in
  detect_loop boxes classes scores score_threshold
    (seq 0 (length scores)) [].

Definition detect_objects (self : t) (s : script) (frame : frame)
    (score_threshold : Q) : M (list (gmap string pyval)) :=
  log (Enter m_detect_objects) ;;;
  try_except
    (input_tensor <- preprocess_frame self s frame ;;
     out <- call e_run_inference (run_inference s) ;;
     lift (collect out score_threshold))
    (fun _ => ret []).

Definition default_score_threshold : Q := 1 # 2.

(** After a successful [__init__], [self.cap] is not [None]. *)
Definition close (self : t) (l : lifecycle) : M unit :=
  log (Enter m_vision_close) ;;;
  call e_cap_release (cap_release l) ;;;
  ret tt.

End VisionProcessor.

(** ** main.py *)

Record world : Type := {
  life : lifecycle;
  scripts : nat -> script       (* the engines' answers, per iteration *)
}.

(** The body of [while True:].  [continue] ends the body at once. *)
Definition iteration (audio_processor : AudioProcessor.t)
    (vision_processor : VisionProcessor.t) (decision_engine : DecisionEngine.t)
    (s : script) : M unit :=
  audio_data <- AudioProcessor.capture_audio audio_processor s ;;
  recognized_text <- AudioProcessor.process_stt audio_processor s audio_data ;;
  frame <- VisionProcessor.capture_frame vision_processor s ;;
  match frame with
  | None => ret tt
  | Some frame =>
      detections <- VisionProcessor.detect_objects vision_processor s frame
                      VisionProcessor.default_score_threshold ;;
      warning_message <- lift (DecisionEngine.process_inputs decision_engine
                                 recognized_text (map PyDict detections)) ;;
      (if negb (String.eqb warning_message "")
       then AudioProcessor.speak audio_processor s warning_message
       else ret tt) ;;;
      call (e_sleep (1 # 10)) (Ok tt)
  end.

(** How a [while True:] loop was left. *)
Inductive raised : Type :=
| RaisedExc (e : string)
| RaisedIntr.

(** [while True: body]: [None] when the loop is still running after [fuel]
    iterations. *)
Fixpoint while_True (fuel : nat) (body : nat -> M unit) (n : nat) (st : state)
  : option raised * state :=
  match fuel with
  | O => (None, st)
  | S fuel' =>
      match body n st with
      | (Ret _, st') => while_True fuel' body (S n) st'
      | (Exc e, st') => (Some (RaisedExc e), st')
      | (Intr, st') => (Some RaisedIntr, st')
      end
  end.

(** [finally:] of [main]. *)
Definition shutdown (audio_processor : AudioProcessor.t)
    (vision_processor : VisionProcessor.t) (l : lifecycle) : M unit :=
  AudioProcessor.close audio_processor l ;;;
  VisionProcessor.close vision_processor l.

(** [main()]: the constructors run before the [try]; both [except] clauses
    only log, so after the loop is left the [finally] block decides how
    [main] ends.  [None]: the loop is still running after [fuel] iterations. *)
Definition main (w : world) (fuel : nat) (st : state)
  : option (outcome unit) * state :=
  match AudioProcessor_init (life w) with
  | Raise e => (Some (Exc e), st)
  | Ok _ =>
      let audio_processor :=
        {| AudioProcessor.rate := 16000; AudioProcessor.chunk_size := 4000 |} in
      match VisionProcessor_init (life w) with
      | Raise e => (Some (Exc e), st)
      | Ok shape =>
          let vision_processor :=
            {| VisionProcessor.camera_index := 0%nat;
               VisionProcessor.input_shape := shape |} in
          let decision_engine := DecisionEngine.init (Some [1; 2; 3]) in
          match while_True fuel
                  (fun n => iteration audio_processor vision_processor
                              decision_engine (scripts w n)) 0 st with
          | (None, st') => (None, st')
          | (Some _, st') =>
              let (o, st'') := shutdown audio_processor vision_processor
                                 (life w) st' in
              (Some o, st'')
          end
      end
  end.

(** The state in which [main] starts: nothing has happened yet; [k] says
    after how many engine calls the interrupt arrives, if it does. *)
Definition start (k : option nat) : state := {| trace := []; pending := k |}.

(** ** Vocabulary of the statements *)

(** A well-formed detection: a dictionary whose ['class'] is an [int] (the
    decision engine looks at no other key). *)
Definition well_formed (o : pyobj) : Prop :=
  ∃ d z, o = PyDict d ∧ d !! "class" = Some (PyInt z).

Definition is_dict (o : pyobj) : Prop := ∃ d, o = PyDict d.

(** A malformed entry: a record without ['class'], or not a record. *)
Definition malformed (o : pyobj) : Prop :=
  match o with
  | PyDict d => d !! "class" = None
  | PyOther _ => True
  end.

(** Some detection of the list has a class in the obstacle set. *)
Definition obstacle_among (self : DecisionEngine.t) (ds : list pyobj) : Prop :=
  ∃ d z, PyDict d ∈ ds ∧ d !! "class" = Some (PyInt z)
         ∧ z ∈ DecisionEngine.obstacle_classes self.

(** What [detection.get('class') in self.obstacle_classes] evaluates to on a
    dictionary. *)
Definition hits (self : DecisionEngine.t) (o : pyobj) : bool :=
  match o with
  | PyDict d => py_in (default PyNone (d !! "class"))
                      (DecisionEngine.obstacle_classes self)
  | PyOther _ => false
  end.

(** Two orders of the same two entries. *)
Definition hit_then_junk : list pyobj :=
  [PyDict {[ "class" := PyInt 1 ]}; PyOther PyNone].
Definition junk_then_hit : list pyobj :=
  [PyOther PyNone; PyDict {[ "class" := PyInt 1 ]}].

(** Whether index [i] of [scores] passes [scores[i] >= score_threshold]. *)
Definition passes (scores : list Q) (score_threshold : Q) (i : nat) : bool :=
  match scores !! i with
  | Some x => np_ge x score_threshold
  | None => false
  end.

(** The indices of [scores] that pass, in the order [range] visits them. *)
Definition kept (scores : list Q) (score_threshold : Q) : list nat :=
  List.filter (passes scores score_threshold) (seq 0 (length scores)).

(** The detection built from index [i] of the three arrays. *)
Definition entry_at (boxes : list (list Q)) (classes scores : list Q) (i : nat)
  : gmap string pyval :=
  VisionProcessor.detection (nth i boxes []) (py_int (nth i classes 0%Q))
                            (py_float (nth i scores 0%Q)).

(** A script for examples: a chunk of sound in which the recognizer hears
    "hello", a 1x1 frame, and the given inference outputs. *)
Definition sample_frame : frame := [[[10; 20; 30]]].

Definition scripted (out : outputs) : script :=
  {| stream_read := Ok [Byte.x01; Byte.x02];
     AcceptWaveform := Ok true;
     Result := Ok (PyDict {[ "text" := PyStr "hello" ]});
     engine_say := Ok tt;
     engine_runAndWait := Ok tt;
     cap_read := Ok (Some sample_frame);
     cv2_resize := Ok sample_frame;
     run_inference := Ok out |}.

Definition sample_box : list Q := [1 # 10; 2 # 10; 3 # 10; 4 # 10].

(** One detection of class 2 with score 0.9. *)
Definition one_obstacle : outputs :=
  {| detection_boxes := Some [sample_box];
     detection_classes := Some [2 # 1];
     detection_scores := Some [9 # 10] |}.

(** Two candidates, of which only the first reaches the threshold 0.5. *)
Definition two_candidates : outputs :=
  {| detection_boxes := Some [sample_box; sample_box];
     detection_classes := Some [2 # 1; 15 # 2];
     detection_scores := Some [9 # 10; 3 # 10] |}.

(** The Python float [0.7] and the float32 nearest to it, which is the
    smaller of the two. *)
Definition double_0_7 : Q := 3152519739159347 # 4503599627370496.
Definition float32_0_7 : Q := 11744051 # 16777216.

(** One candidate whose score is the float32 [0.7]. *)
Definition borderline : outputs :=
  {| detection_boxes := Some [sample_box];
     detection_classes := Some [2 # 1];
     detection_scores := Some [float32_0_7] |}.

Definition sample_vision : VisionProcessor.t :=
  {| VisionProcessor.camera_index := 0%nat;
     VisionProcessor.input_shape := [1; 1; 1; 3]%nat |}.

Definition sample_audio : AudioProcessor.t :=
  {| AudioProcessor.rate := 16000; AudioProcessor.chunk_size := 4000 |}.

(** Classes of events. *)
Definition is_speak (e : event) : bool :=
  match e with Enter (m_speak _) => true | _ => false end.

Definition is_sleep (e : event) : bool :=
  match e with Call (e_sleep _) => true | _ => false end.

Definition is_recognizer_call (e : event) : bool :=
  match e with
  | Call (e_AcceptWaveform _) | Call e_Result => true
  | _ => false
  end.

Definition is_audio_close (e : event) : bool :=
  match e with Enter m_audio_close => true | _ => false end.

Definition is_vision_close (e : event) : bool :=
  match e with Enter m_vision_close => true | _ => false end.

(** Events of the shutdown path: the two [close()] methods and the engine
    calls they make. *)
Definition is_shutdown (e : event) : bool :=
  match e with
  | Enter m_audio_close | Enter m_vision_close
  | Call e_stop_stream | Call e_stream_close | Call e_terminate
  | Call e_cap_release => true
  | _ => false
  end.

Definition is_cap_release (e : event) : bool :=
  match e with Call e_cap_release => true | _ => false end.

Definition is_terminate (e : event) : bool :=
  match e with Call e_terminate => true | _ => false end.




(** How often an event of a class occurs. *)
Definition count (p : event → bool) (l : list event) : nat :=
  length (List.filter p l).

(** The interrupt clock between the state before and after a computation:
    without a pending interrupt none is delivered; with one, either it is
    delivered (and is no longer pending) or it has not come closer than
    zero calls. *)
Definition clock {A} (st : state) (o : outcome A) (st' : state) : Prop :=
  match pending st with
  | None => pending st' = None ∧ o ≠ Intr
  | Some k =>
      (o = Intr ∧ pending st' = None)
      ∨ (o ≠ Intr ∧ ∃ k', pending st' = Some k' ∧ (k' ≤ k)%nat)
  end.

(** A computation that only appends events of class [p] and respects the
    interrupt clock. *)
Definition steps {A} (p : event → bool) (c : M A) : Prop :=
  ∀ st o st', c st = (o, st') →
    (∃ evs, trace st' = trace st ++ evs ∧ forallb p evs = true)
    ∧ clock st o st'.

(** A computation from which no [Exception] escapes. *)
Definition contained {A} (c : M A) : Prop :=
  ∀ st o st', c st = (o, st') → ∀ e, o ≠ Exc e.


(** Whatever a computation returns satisfies [Q]. *)
Definition yields {A} (c : M A) (Q : A → Prop) : Prop :=
  ∀ st a st', c st = (Ret a, st') → Q a.

(** The sample script with a camera whose [read] raises. *)
Definition camera_fault : script :=
  {| stream_read := Ok [Byte.x01; Byte.x02];
     AcceptWaveform := Ok false;
     Result := Ok (PyDict ∅);
     engine_say := Ok tt;
     engine_runAndWait := Ok tt;
     cap_read := Raise "cv2.error";
     cv2_resize := Ok sample_frame;
     run_inference := Ok one_obstacle |}.

(** The sample script with a camera that misses the frame. *)
Definition missed_frame : script :=
  {| stream_read := Ok [Byte.x01; Byte.x02];
     AcceptWaveform := Ok false;
     Result := Ok (PyDict ∅);
     engine_say := Ok tt;
     engine_runAndWait := Ok tt;
     cap_read := Ok None;
     cv2_resize := Ok sample_frame;
     run_inference := Ok one_obstacle |}.

Definition sample_life : lifecycle :=
  {| AudioProcessor_init := Ok tt;
     VisionProcessor_init := Ok [1; 1; 1; 3]%nat;
     stop_stream := Ok tt;
     stream_close := Ok tt;
     pyaudio_terminate := Ok tt;
     cap_release := Ok tt |}.

(** A world in which every iteration sees one obstacle. *)
Definition sample_world : world :=
  {| life := sample_life; scripts := fun _ => scripted one_obstacle |}.


(** From state [st] the computation returns a value satisfying [Q], with
    no interrupt pending afterwards. *)
Definition returns {A} (c : M A) (st : state) (Q : A → Prop) : Prop :=
  ∃ a st', c st = (Ret a, st') ∧ pending st' = None ∧ Q a.

(** ** The constructors *)

(** What the constructors call, in [audio.py] and [vision.py]. *)
Inductive startup_call : Type :=
| s_pyttsx3_init
| s_Model (model_path : string)
| s_KaldiRecognizer (rate : Z)
| s_PyAudio
| s_open (rate frames_per_buffer : Z)
| s_start_stream
| s_VideoCapture (camera_index : nat)
| s_isOpened
| s_path_exists (path : string)
| s_SNPE (runtime : string)
| s_load_dlc (dlc_file : string)
| s_get_input_shape.

(** The answers the libraries give to [AudioProcessor.__init__]. *)
Record audio_startup : Type := {
  pyttsx3_init : answer unit;
  Model : answer unit;
  KaldiRecognizer : answer unit;
  PyAudio : answer unit;
  pyaudio_open : answer unit;
  start_stream : answer unit
}.

(** The answers the libraries give to [VisionProcessor.__init__]. *)
Record vision_startup : Type := {
  VideoCapture : answer unit;
  isOpened : answer bool;
  path_exists : answer bool;
  SNPE : answer unit;
  load_dlc : answer unit;
  get_input_shape : answer (list nat)
}.

(** A constructor: the calls made so far (oldest first) are threaded, and
    the result is the object or the exception raised. *)
Definition Ctor (A : Type) : Type :=
  list startup_call → answer A * list startup_call.

Definition sret {A} (a : A) : Ctor A := fun cs => (Ok a, cs).

Definition sraise {A} (e : string) : Ctor A := fun cs => (Raise e, cs).

Definition sbind {A B} (c : Ctor A) (k : A → Ctor B) : Ctor B :=
  fun cs =>
    match c cs with
    | (Ok a, cs') => k a cs'
    | (Raise e, cs') => (Raise e, cs')
    end.

Definition scall {A} (c : startup_call) (a : answer A) : Ctor A :=
  fun cs => (a, cs ++ [c]).

(** [try: body; except Exception as e: handler e] in a constructor. *)
Definition stry {A} (body : Ctor A) (handler : string → Ctor A) : Ctor A :=
  fun cs =>
    match body cs with
    | (Raise e, cs') => handler e cs'
    | r => r
    end.

(** [AudioProcessor.__init__(self, model_path, rate, chunk_size)]: three
    [try] blocks, each of which logs and re-raises. *)
Definition AudioProcessor__init__ (u : audio_startup) (model_path : string)
    (rate chunk_size : Z) : Ctor AudioProcessor.t :=
  sbind (stry (scall s_pyttsx3_init (pyttsx3_init u)) (fun e => sraise e))
    (fun _ =>
  sbind (stry (sbind (scall (s_Model model_path) (Model u)) (fun _ =>
               scall (s_KaldiRecognizer rate) (KaldiRecognizer u)))
              (fun e => sraise e))
    (fun _ =>
  sbind (stry (sbind (scall s_PyAudio (PyAudio u)) (fun _ =>
               sbind (scall (s_open rate chunk_size) (pyaudio_open u)) (fun _ =>
               scall s_start_stream (start_stream u))))
              (fun e => sraise e))
    (fun _ =>
  sret {| AudioProcessor.rate := rate;
          AudioProcessor.chunk_size := chunk_size |}))).

(** [VisionProcessor.__init__(self, dlc_file, runtime, camera_index)]. *)
Definition VisionProcessor__init__ (u : vision_startup) (dlc_file : string)
    (runtime : string) (camera_index : nat) : Ctor VisionProcessor.t :=
  sbind (scall (s_VideoCapture camera_index) (VideoCapture u)) (fun _ =>
  sbind (scall s_isOpened (isOpened u)) (fun opened =>
  if negb opened then sraise "IOError"
  else
  sbind (scall (s_path_exists dlc_file) (path_exists u)) (fun found =>
  if negb found then sraise "ValueError"
  else
  sbind (scall (s_SNPE runtime) (SNPE u)) (fun _ =>
  sbind (scall (s_load_dlc dlc_file) (load_dlc u)) (fun _ =>
  sbind (scall s_get_input_shape (get_input_shape u)) (fun shape =>
  sret {| VisionProcessor.camera_index := camera_index;
          VisionProcessor.input_shape := shape |})))))).

(** The constructor calls of [main()], as the answers [main] starts from:
    [VisionProcessor] is constructed only after [AudioProcessor]. *)
Definition constructed (au : audio_startup) (vu : vision_startup)
    (l : lifecycle) : lifecycle :=
  {| AudioProcessor_init :=
       match fst (AudioProcessor__init__ au "model" 16000 4000 []) with
       | Ok _ => Ok tt
       | Raise e => Raise e
       end;
     VisionProcessor_init :=
       match fst (VisionProcessor__init__ vu "model.dlc" "GPU" 0 []) with
       | Ok v => Ok (VisionProcessor.input_shape v)
       | Raise e => Raise e
       end;
     stop_stream := stop_stream l;
     stream_close := stream_close l;
     pyaudio_terminate := pyaudio_terminate l;
     cap_release := cap_release l |}.

(** ** The stand-alone loops *)

(** Truth value of a Python object. *)
Definition py_bool (v : pyval) : bool :=
  match v with
  | PyNone => false
  | PyBool b => b
  | PyInt z => negb (Z.eqb z 0)
  | PyFloat q => negb (Qeq_bool q 0)
  | PyStr s => negb (String.eqb s "")
  | PyList l => match l with [] => false | _ :: _ => true end
  end.

(** ["I heard " + v]: concatenation with a [str], [TypeError] otherwise. *)
Definition py_concat_str (left : string) (v : pyval) : outcome string :=
  match v with
  | PyStr s => Ret (String.append left s)
  | _ => Exc "TypeError"
  end.

(** The body of the loop at the end of [audio.py] ([print] is left out). *)
Definition audio_standalone_iteration (audio_processor : AudioProcessor.t)
    (s : script) : M unit :=
  audio_chunk <- AudioProcessor.capture_audio audio_processor s ;;
  recognized_text <- AudioProcessor.process_stt audio_processor s audio_chunk ;;
  (if py_bool recognized_text
   then text <- lift (py_concat_str "I heard " recognized_text) ;;
        AudioProcessor.speak audio_processor s text
   else ret tt) ;;;
  call (e_sleep (1 # 10)) (Ok tt).

(** The body of the loop at the end of [vision.py] ([print] is left out). *)
Definition vision_standalone_iteration (vision_processor : VisionProcessor.t)
    (s : script) : M unit :=
  frame <- VisionProcessor.capture_frame vision_processor s ;;
  (match frame with
   | Some frame =>
       detections <- VisionProcessor.detect_objects vision_processor s frame
                       VisionProcessor.default_score_threshold ;;
       ret tt
   | None => ret tt
   end) ;;;
  call (e_sleep (1 # 10)) (Ok tt).

(** ** More vocabulary *)

Definition is_stream_read (e : event) : bool :=
  match e with Call (e_stream_read _) => true | _ => false end.

Definition is_AcceptWaveform (e : event) : bool :=
  match e with Call (e_AcceptWaveform _) => true | _ => false end.

Definition is_Result (e : event) : bool :=
  match e with Call e_Result => true | _ => false end.

Definition is_cap_read (e : event) : bool :=
  match e with Call e_cap_read => true | _ => false end.

Definition is_resize (e : event) : bool :=
  match e with Call (e_resize _ _) => true | _ => false end.

Definition is_run_inference (e : event) : bool :=
  match e with Call e_run_inference => true | _ => false end.

Definition is_say (e : event) : bool :=
  match e with Call (e_say _) => true | _ => false end.

Definition is_runAndWait (e : event) : bool :=
  match e with Call e_runAndWait => true | _ => false end.

(** An entry into [speak] with a text other than the warning. *)
Definition is_other_speech (e : event) : bool :=
  match e with
  | Enter (m_speak text) =>
      negb (String.eqb text DecisionEngine.warning_message)
  | _ => false
  end.

(** A computation that appends at most [n] events of class [q]. *)
Definition at_most {A} (q : event → bool) (n : nat) (c : M A) : Prop :=
  ∀ st o st', c st = (o, st') →
    ∃ evs, trace st' = trace st ++ evs ∧ (count q evs ≤ n)%nat.

(** What [detect_objects] returns when no interrupt arrives: the collected
    detections, or the empty list when the shape, the resize, the inference
    or an index fails. *)
Definition detections_of (v : VisionProcessor.t) (s : script)
    (score_threshold : Q) : list (gmap string pyval) :=
  match VisionProcessor.input_shape v with
  | [_; _; _; _] =>
      match cv2_resize s, run_inference s with
      | Ok _, Ok out =>
          match VisionProcessor.collect out score_threshold with
          | Ret ds => ds
          | _ => []
          end
      | _, _ => []
      end
  | _ => []
  end.

(** Every passing index lies within [boxes] and [classes]. *)
Definition covered (boxes : list (list Q)) (classes scores : list Q)
    (score_threshold : Q) : bool :=
  forallb (fun i => Nat.ltb i (length boxes) && Nat.ltb i (length classes))
          (kept scores score_threshold).

(** The kind of an event: which method, whatever its arguments. *)
Inductive kind : Type :=
| k_capture_audio | k_stream_read
| k_process_stt | k_AcceptWaveform | k_Result
| k_capture_frame | k_cap_read
| k_detect_objects | k_resize | k_run_inference
| k_process_inputs
| k_speak | k_say | k_runAndWait
| k_sleep
| k_audio_close | k_stop_stream | k_stream_close | k_terminate
| k_vision_close | k_cap_release.

#[global] Instance kind_eq_dec : EqDecision kind.
Proof. solve_decision. Defined.

Definition kind_of (e : event) : kind :=
  match e with
  | Enter m_capture_audio => k_capture_audio
  | Enter (m_process_stt _) => k_process_stt
  | Enter (m_speak _) => k_speak
  | Enter m_audio_close => k_audio_close
  | Enter m_capture_frame => k_capture_frame
  | Enter m_detect_objects => k_detect_objects
  | Enter m_vision_close => k_vision_close
  | Enter m_process_inputs => k_process_inputs
  | Call (e_stream_read _) => k_stream_read
  | Call (e_AcceptWaveform _) => k_AcceptWaveform
  | Call e_Result => k_Result
  | Call (e_say _) => k_say
  | Call e_runAndWait => k_runAndWait
  | Call e_stop_stream => k_stop_stream
  | Call e_stream_close => k_stream_close
  | Call e_terminate => k_terminate
  | Call e_cap_read => k_cap_read
  | Call (e_resize _ _) => k_resize
  | Call e_run_inference => k_run_inference
  | Call e_cap_release => k_cap_release
  | Call (e_sleep _) => k_sleep
  end.

(** The order in which the body of the loop in [main.py] reaches its
    calls, and the order of the [finally] block. *)
Definition iteration_order : list kind :=
  [ k_capture_audio; k_stream_read;
    k_process_stt; k_AcceptWaveform; k_Result;
    k_capture_frame; k_cap_read;
    k_detect_objects; k_resize; k_run_inference;
    k_speak; k_say; k_runAndWait;
    k_sleep ].

Definition shutdown_order : list kind :=
  [ k_audio_close; k_stop_stream; k_stream_close; k_terminate;
    k_vision_close; k_cap_release ].

(** A computation whose events, by kind, are picked in order from [ks]:
    each at most once, none out of order. *)
Definition emits {A} (ks : list kind) (c : M A) : Prop :=
  ∀ st o st', c st = (o, st') →
    ∃ evs, trace st' = trace st ++ evs ∧ sublist (map kind_of evs) ks.

(** * Properties *)

(** ** The decision engine *)

Section DecisionEngineFacts.

Variable self : DecisionEngine.t.

(** The generator element of [process_inputs]. *)
Let step (o : pyobj) : outcome bool :=
  obind (py_get o "class" PyNone)
        (fun c => Ret (py_in c (DecisionEngine.obstacle_classes self))).

Lemma py_in_int (z : Z) (l : list Z) : py_in (PyInt z) l = true ↔ z ∈ l.
Proof.
  unfold py_in. rewrite existsb_exists. split.
  - intros (k & Hk & Heq). apply Z.eqb_eq in Heq. subst.
    by apply list_elem_of_In.
  - intros Hz. exists z. split; [by apply list_elem_of_In | apply Z.eqb_refl].
Qed.

Lemma py_in_None (l : list Z) : py_in PyNone l = false.
Proof. unfold py_in. induction l; simpl; auto. Qed.

(** On dictionaries alone nothing raises and [any] is [existsb]. *)
Lemma py_any_dicts (ds : list pyobj) :
  Forall is_dict ds → py_any step ds = Ret (existsb (hits self) ds).
Proof.
  induction 1 as [|o ds [d ->] _ IH]; [reflexivity|].
  cbn [py_any existsb]. unfold step at 1. cbn [py_get obind hits].
  destruct (py_in _ _); [reflexivity | exact IH].
Qed.

(** The only fault of the generator is the missing [get] method. *)
Lemma py_any_step_cases (ds : list pyobj) :
  (∃ b, py_any step ds = Ret b) ∨ py_any step ds = Exc "AttributeError".
Proof.
  induction ds as [|[d|v] ds IH]; cbn [py_any].
  - left. by exists false.
  - unfold step at 1 3. cbn [py_get obind].
    destruct (py_in _ _); [left; by exists true | exact IH].
  - right. reflexivity.
Qed.

Lemma process_inputs_cases (audio_text : pyval) (ds : list pyobj) :
  DecisionEngine.process_inputs self audio_text ds =
    Ret (match py_any step ds with
         | Ret true => DecisionEngine.warning_message
         | _ => ""
         end).
Proof.
  unfold DecisionEngine.process_inputs, DecisionEngine.process_inputs_body.
  fold step. destruct (py_any_step_cases ds) as [[[] ->] | ->]; reflexivity.
Qed.

Lemma process_inputs_dicts (audio_text : pyval) (ds : list pyobj) :
  Forall is_dict ds →
  DecisionEngine.process_inputs self audio_text ds =
    Ret (if existsb (hits self) ds
         then DecisionEngine.warning_message else "").
Proof.
  intros Hds. rewrite process_inputs_cases, (py_any_dicts _ Hds).
  by destruct (existsb _ _).
Qed.

Lemma well_formed_is_dict (o : pyobj) : well_formed o → is_dict o.
Proof. intros (d & z & -> & _). by exists d. Qed.

Lemma hits_obstacle_among (ds : list pyobj) :
  Forall well_formed ds →
  existsb (hits self) ds = true ↔ obstacle_among self ds.
Proof.
  intros Hwf. rewrite existsb_exists. split.
  - intros (o & Ho & Hhit).
    apply list_elem_of_In in Ho.
    destruct (proj1 (Forall_forall _ _) Hwf o Ho) as (d & z & -> & Hc).
    cbn [hits] in Hhit. rewrite Hc in Hhit. cbn [default] in Hhit.
    exists d, z. by rewrite <- py_in_int.
  - intros (d & z & Hd & Hc & Hz). exists (PyDict d). split.
    + by apply list_elem_of_In.
    + cbn [hits]. rewrite Hc. cbn [default]. by apply py_in_int.
Qed.

Lemma existsb_Permutation {A} (f : A → bool) (l l' : list A) :
  Permutation l l' → existsb f l = existsb f l'.
Proof.
  induction 1 as [| x l l' _ IH | x y l | l l' l'' _ IH1 _ IH2]; cbn [existsb].
  - reflexivity.
  - by rewrite IH.
  - by destruct (f x), (f y).
  - by rewrite IH1.
Qed.

Lemma warning_nonempty : DecisionEngine.warning_message ≠ "".
Proof. discriminate. Qed.

End DecisionEngineFacts.

(** C1.  On a well-formed detection list, whatever the recognized text,
    [process_inputs] returns the fixed warning exactly when some detection
    has a class in the obstacle set, and the empty string otherwise. *)
Theorem process_inputs_warns_iff_obstacle
    (self : DecisionEngine.t) (audio_text : pyval) (ds : list pyobj) :
  Forall well_formed ds →
  (DecisionEngine.process_inputs self audio_text ds
     = Ret "Warning: Obstacle ahead!" ↔ obstacle_among self ds)
  ∧ (¬ obstacle_among self ds →
     DecisionEngine.process_inputs self audio_text ds = Ret "").
Proof.
  intros Hwf.
  assert (Hd : Forall is_dict ds)
    by (eapply Forall_impl; [exact Hwf | exact well_formed_is_dict]).
  rewrite (process_inputs_dicts self audio_text ds Hd).
  pose proof (hits_obstacle_among self ds Hwf) as Hiff.
  destruct (existsb (hits self) ds); split.
  - split; [intros _; by apply Hiff | reflexivity].
  - intros Hno. destruct Hno. by apply Hiff.
  - split; [discriminate | intros Hob; apply Hiff in Hob; discriminate].
  - reflexivity.
Qed.

Lemma process_inputs_warns_iff_obstacle_witness :
  DecisionEngine.process_inputs (DecisionEngine.init None) (PyStr "hello")
    [PyDict {[ "class" := PyInt 5 ]}; PyDict {[ "class" := PyInt 1 ]}]
  = Ret "Warning: Obstacle ahead!".
Proof.
  apply (process_inputs_warns_iff_obstacle (DecisionEngine.init None)
           (PyStr "hello")
           [PyDict {[ "class" := PyInt 5 ]}; PyDict {[ "class" := PyInt 1 ]}]).
  - repeat constructor.
    + exists {[ "class" := PyInt 5 ]}, 5. split; reflexivity.
    + exists {[ "class" := PyInt 1 ]}, 1. split; reflexivity.
  - exists {[ "class" := PyInt 1 ]}, 1. split; [|split].
    + apply list_elem_of_In. right. left. reflexivity.
    + reflexivity.
    + apply list_elem_of_In. left. reflexivity.
Defined.

(** C2.  A detection list is a list of detection records, whatever their
    keys and values.  Reordering it does not change the result of
    [process_inputs], and neither does the recognized text. *)
Theorem process_inputs_invariance
    (self : DecisionEngine.t) (t t1 t2 : pyval)
    (d d' : list (gmap string pyval)) :
  Permutation d d' →
  DecisionEngine.process_inputs self t (map PyDict d)
    = DecisionEngine.process_inputs self t (map PyDict d')
  ∧ DecisionEngine.process_inputs self t1 (map PyDict d)
    = DecisionEngine.process_inputs self t2 (map PyDict d).
Proof.
  intros Hperm.
  assert (Hdicts : ∀ l : list (gmap string pyval),
            Forall is_dict (map PyDict l)).
  { intros l. apply Forall_forall. intros o Ho.
    apply list_elem_of_In, in_map_iff in Ho. destruct Ho as (r & <- & _).
    by exists r. }
  split.
  - rewrite !process_inputs_dicts by apply Hdicts.
    by rewrite (existsb_Permutation (hits self) _ _
                  (Permutation_map PyDict Hperm)).
  - by rewrite !process_inputs_dicts by apply Hdicts.
Qed.

Lemma process_inputs_invariance_witness :
  DecisionEngine.process_inputs (DecisionEngine.init None) (PyStr "hello")
    (map PyDict [ {[ "class" := PyInt 5 ]}; {[ "score" := PyFloat (9 # 10) ]};
                  {[ "class" := PyInt 1 ]} ])
  = DecisionEngine.process_inputs (DecisionEngine.init None) (PyStr "hello")
      (map PyDict [ {[ "class" := PyInt 1 ]}; {[ "class" := PyInt 5 ]};
                    {[ "score" := PyFloat (9 # 10) ]} ])
  ∧ DecisionEngine.process_inputs (DecisionEngine.init None) (PyStr "go")
      (map PyDict [ {[ "class" := PyInt 5 ]}; {[ "score" := PyFloat (9 # 10) ]};
                    {[ "class" := PyInt 1 ]} ])
    = DecisionEngine.process_inputs (DecisionEngine.init None) (PyStr "stop")
        (map PyDict [ {[ "class" := PyInt 5 ]};
                      {[ "score" := PyFloat (9 # 10) ]};
                      {[ "class" := PyInt 1 ]} ]).
Proof.
  apply (process_inputs_invariance (DecisionEngine.init None)
           (PyStr "hello") (PyStr "go") (PyStr "stop")).
  apply Permutation_sym, (Permutation_cons_app [_; _] []). reflexivity.
Defined.

(** Beyond detection records: an entry without a [get] method raises when
    [any] reaches it, so the result then depends on whether a hit comes
    first.  [detect_objects] never produces such an entry. *)
Example process_inputs_order_matters :
  Permutation hit_then_junk junk_then_hit
  ∧ DecisionEngine.process_inputs (DecisionEngine.init None) (PyStr "hello")
      hit_then_junk = Ret "Warning: Obstacle ahead!"
  ∧ DecisionEngine.process_inputs (DecisionEngine.init None) (PyStr "hello")
      junk_then_hit = Ret "".
Proof.
  split; [apply perm_swap|]. split; vm_compute; reflexivity.
Qed.

(** C6.  [process_inputs] never raises, whatever the list holds; a list of
    malformed entries only gives no warning; a record without ['class']
    counts exactly like a record whose class is no obstacle (dropping it
    leaves the result as it is); and a warning always comes from a record
    that has a ['class'] in the obstacle set. *)
Theorem process_inputs_tolerates_malformed
    (self : DecisionEngine.t) (audio_text : pyval) (ds : list pyobj) :
  (∃ s, DecisionEngine.process_inputs self audio_text ds = Ret s
        ∧ (s = "" ∨ s = "Warning: Obstacle ahead!"))
  ∧ (Forall malformed ds →
     DecisionEngine.process_inputs self audio_text ds = Ret "")
  ∧ (∀ l1 d l2, ds = l1 ++ PyDict d :: l2 → d !! "class" = None →
     DecisionEngine.process_inputs self audio_text ds
       = DecisionEngine.process_inputs self audio_text (l1 ++ l2))
  ∧ (DecisionEngine.process_inputs self audio_text ds
       = Ret "Warning: Obstacle ahead!" →
     ∃ d v, PyDict d ∈ ds ∧ d !! "class" = Some v
            ∧ py_in v (DecisionEngine.obstacle_classes self) = true).
Proof.
  split; [|split; [|split]].
  - rewrite process_inputs_cases.
    destruct (py_any _ ds) as [[]| |]; eexists; split; eauto.
  - intros Hmal. rewrite process_inputs_cases.
    induction Hmal as [|[d|v] l Hd _ IH]; [reflexivity| |reflexivity].
    cbn [py_any py_get obind]. cbn [malformed] in Hd. rewrite Hd.
    cbn [default]. rewrite py_in_None. exact IH.
  - intros l1 d l2 -> Hd. rewrite !process_inputs_cases. f_equal.
    induction l1 as [|[d1|v1] l1 IH]; cbn [app py_any py_get obind].
    + rewrite Hd. cbn [default]. by rewrite py_in_None.
    + destruct (py_in _ _); [reflexivity | exact IH].
    + reflexivity.
  - rewrite process_inputs_cases.
    induction ds as [|[d|v] ds IH]; cbn [py_any py_get obind]; [done| |done].
    destruct (d !! "class") as [c|] eqn:Hc; cbn [from_option id].
    + destruct (py_in c _) eqn:Hin.
      * intros _. exists d, c. split; [left|]; done.
      * intros H. destruct (IH H) as (d' & v' & Hd' & Hv').
        exists d', v'. split; [by right | done].
    + rewrite py_in_None. intros H. destruct (IH H) as (d' & v' & Hd' & Hv').
      exists d', v'. split; [by right | done].
Qed.

Lemma process_inputs_tolerates_malformed_witness :
  DecisionEngine.process_inputs (DecisionEngine.init None) (PyStr "hello")
    [PyDict {[ "score" := PyFloat (9 # 10) ]}; PyOther (PyInt 1)]
  = Ret "".
Proof.
  apply (process_inputs_tolerates_malformed (DecisionEngine.init None)
           (PyStr "hello")
           [PyDict {[ "score" := PyFloat (9 # 10) ]}; PyOther (PyInt 1)]).
  repeat constructor.
Defined.

(** ** float32 *)

Lemma round_half_even_mono (x y : Q) :
  (x <= y)%Q → round_half_even x <= round_half_even y.
Proof.
  intros Hxy. unfold round_half_even.
  pose proof (Qfloor_resp_le x y Hxy) as Hf.
  pose proof (Qfloor_le x) as Hx1. pose proof (Qlt_floor x) as Hx2.
  pose proof (Qfloor_le y) as Hy1. pose proof (Qlt_floor y) as Hy2.
  destruct (Z.eq_dec (Qfloor x) (Qfloor y)) as [Heq|Hne].
  - rewrite <- Heq in *.
    destruct (Qcompare_spec (x - inject_Z (Qfloor x)) (1 # 2)) as [Hx|Hx|Hx];
      destruct (Qcompare_spec (y - inject_Z (Qfloor x)) (1 # 2)) as [Hy|Hy|Hy];
      destruct (Z.even (Qfloor x)); try lia; exfalso; lra.
  - destruct ((x - inject_Z (Qfloor x) ?= 1 # 2)%Q),
      ((y - inject_Z (Qfloor y) ?= 1 # 2)%Q),
      (Z.even (Qfloor x)), (Z.even (Qfloor y)); lia.
Qed.

Lemma round_half_even_Z (z : Z) : round_half_even (inject_Z z) = z.
Proof.
  unfold round_half_even. rewrite Qfloor_Z.
  destruct (Qcompare_spec (inject_Z z - inject_Z z) (1 # 2)) as [H|H|H];
    [exfalso; lra | reflexivity | exfalso; lra].
Qed.

Lemma pow2_inject (a b : Z) :
  0 <= a → 0 <= b →
  (inject_Z (2 ^ a) * inject_Z (2 ^ b) == inject_Z (2 ^ (a + b)))%Q.
Proof.
  intros Ha Hb. rewrite <- inject_Z_mult, Z.pow_add_r by lia. reflexivity.
Qed.

Lemma pow2_inject_pos (a : Z) : 0 <= a → (0 < inject_Z (2 ^ a))%Q.
Proof.
  intros Ha. change 0%Q with (inject_Z 0). rewrite <- Zlt_Qlt.
  apply Z.pow_pos_nonneg; lia.
Qed.

(** The shift brings a number below [2^24] and, when it is not zero, to
    [2^23] at least: the significand has 24 bits. *)
Lemma shifted_range (x : Q) :
  let shift := Z.max 0 (Z.log2 (Qfloor x) - 23) in
  (x / inject_Z (2 ^ shift) <= inject_Z (2 ^ 24))%Q
  ∧ (0 < shift → (inject_Z (2 ^ 23) <= x / inject_Z (2 ^ shift))%Q).
Proof.
  intros shift.
  assert (Hs : 0 <= shift) by (unfold shift; lia).
  pose proof (pow2_inject_pos shift Hs) as Hpos.
  split.
  - apply Qle_shift_div_r; [exact Hpos|].
    rewrite pow2_inject by lia.
    apply Qle_trans with (inject_Z (Qfloor x + 1));
      [apply Qlt_le_weak, Qlt_floor|].
    rewrite <- Zle_Qle.
    destruct (Z.le_gt_cases (Qfloor x) 0) as [H0|H0].
    + assert (1 <= 2 ^ (24 + shift))
        by (apply Z.pow_le_mono_r with (b := 0); lia).
      lia.
    + pose proof (Z.log2_spec _ H0) as [_ Hlt].
      assert (2 ^ Z.succ (Z.log2 (Qfloor x)) <= 2 ^ (24 + shift))
        by (apply Z.pow_le_mono_r; unfold shift; lia).
      lia.
  - intros Hshift.
    apply Qle_shift_div_l; [exact Hpos|].
    rewrite pow2_inject by lia.
    apply Qle_trans with (inject_Z (Qfloor x)); [|apply Qfloor_le].
    rewrite <- Zle_Qle.
    assert (H0 : 0 < Qfloor x).
    { destruct (Z.le_gt_cases (Qfloor x) 0) as [H0|H0]; [|lia].
      unfold shift in Hshift. rewrite (Z.log2_nonpos _ H0) in Hshift. lia. }
    pose proof (Z.log2_spec _ H0) as [Hle _].
    replace (23 + shift) with (Z.log2 (Qfloor x)) by (unfold shift; lia).
    exact Hle.
Qed.

(** Rounding to float32 is monotone: within one binade because rounding to
    an integer is, across binades because a power of two lies in between. *)
Lemma float32_magnitude_mono (x y : Q) :
  (x <= y)%Q → float32_magnitude x <= float32_magnitude y.
Proof.
  intros Hxy. unfold float32_magnitude.
  set (X := (x * inject_Z (2 ^ 149))%Q). set (Y := (y * inject_Z (2 ^ 149))%Q).
  assert (HXY : (X <= Y)%Q).
  { unfold X, Y. apply Qmult_le_compat_r; [exact Hxy|].
    apply Qlt_le_weak, pow2_inject_pos. lia. }
  pose proof (Z.log2_le_mono _ _ (Qfloor_resp_le X Y HXY)) as Hlog.
  pose proof (shifted_range X) as [HX _].
  pose proof (shifted_range Y) as [_ HY].
  set (sx := Z.max 0 (Z.log2 (Qfloor X) - 23)) in *.
  set (sy := Z.max 0 (Z.log2 (Qfloor Y) - 23)) in *.
  assert (Hsx : 0 <= sx) by (unfold sx; lia).
  destruct (Z.eq_dec sx sy) as [Heq|Hne].
  - rewrite <- Heq. apply Z.mul_le_mono_nonneg_r; [apply Z.pow_nonneg; lia|].
    apply round_half_even_mono. unfold Qdiv.
    apply Qmult_le_compat_r; [exact HXY|].
    apply Qinv_le_0_compat, Qlt_le_weak, pow2_inject_pos, Hsx.
  - assert (Hlt : sx < sy) by (unfold sx, sy in *; lia).
    apply round_half_even_mono in HX. rewrite round_half_even_Z in HX.
    specialize (HY ltac:(lia)).
    apply round_half_even_mono in HY. rewrite round_half_even_Z in HY.
    apply Z.le_trans with (2 ^ 24 * 2 ^ sx);
      [apply Z.mul_le_mono_nonneg_r; [apply Z.pow_nonneg; lia | exact HX]|].
    apply Z.le_trans with (2 ^ 23 * 2 ^ sy);
      [|apply Z.mul_le_mono_nonneg_r; [apply Z.pow_nonneg; lia | exact HY]].
    rewrite <- !Z.pow_add_r by lia. apply Z.pow_le_mono_r; lia.
Qed.

Lemma float32_magnitude_nonneg (x : Q) : (0 <= x)%Q → 0 <= float32_magnitude x.
Proof. intros Hx. exact (float32_magnitude_mono 0 x Hx). Qed.

Lemma float32_of_magnitude_mono (m n : Z) (q : Q) :
  m <= n → float32_of_magnitude n = Some q →
  ∃ p, float32_of_magnitude m = Some p ∧ (p <= q)%Q.
Proof.
  unfold float32_of_magnitude. intros Hmn.
  destruct (Z.leb_spec (2 ^ 277) n) as [Hn|Hn]; [discriminate|].
  intros [= <-]. destruct (Z.leb_spec (2 ^ 277) m) as [Hm|Hm]; [lia|].
  eexists. split; [reflexivity|]. rewrite !Qred_correct. unfold Qdiv.
  apply Qmult_le_compat_r; [by rewrite <- Zle_Qle|].
  apply Qinv_le_0_compat, Qlt_le_weak, pow2_inject_pos. lia.
Qed.

Lemma float32_of_magnitude_nonneg (n : Z) (q : Q) :
  0 <= n → float32_of_magnitude n = Some q → (0 <= q)%Q.
Proof.
  unfold float32_of_magnitude. intros Hn.
  destruct (2 ^ 277 <=? n)%Z; [discriminate|]. intros [= <-].
  rewrite Qred_correct.
  apply Qle_shift_div_l; [apply pow2_inject_pos; lia|].
  rewrite Qmult_0_l. change 0%Q with (inject_Z 0). by rewrite <- Zle_Qle.
Qed.

(** Converting the threshold to float32 keeps the order of thresholds, so
    a score that reaches the higher of two thresholds reaches the lower. *)
Lemma np_ge_mono (s x y : Q) :
  (x <= y)%Q → np_ge s y = true → np_ge s x = true.
Proof.
  intros Hxy. unfold np_ge, np_float32.
  destruct (Qle_bool 0 x) eqn:Hx, (Qle_bool 0 y) eqn:Hy.
  - apply Qle_bool_iff in Hx.
    pose proof (float32_magnitude_mono x y Hxy) as Hm.
    destruct (float32_of_magnitude (float32_magnitude y)) as [q|] eqn:Eq;
      [|discriminate].
    destruct (float32_of_magnitude_mono _ _ q Hm Eq) as (p & -> & Hpq).
    cbn [float32_ge]. rewrite !Qle_bool_iff. intros Hq. lra.
  - apply Qle_bool_iff in Hx.
    assert (Hny : ¬ (0 <= y)%Q) by (rewrite <- Qle_bool_iff, Hy; discriminate).
    exfalso. lra.
  - apply Qle_bool_iff in Hy.
    assert (Hnx : ¬ (0 <= x)%Q) by (rewrite <- Qle_bool_iff, Hx; discriminate).
    destruct (float32_of_magnitude (float32_magnitude y)) as [q|] eqn:Eq;
      [|discriminate].
    destruct (float32_of_magnitude (float32_magnitude (- x))) as [p|] eqn:Ep;
      [|reflexivity].
    apply float32_of_magnitude_nonneg in Eq;
      [|apply float32_magnitude_nonneg, Hy].
    apply float32_of_magnitude_nonneg in Ep;
      [|apply float32_magnitude_nonneg; lra].
    cbn [float32_ge]. rewrite !Qle_bool_iff. intros Hq. lra.
  - assert (Hm : float32_magnitude (- y) <= float32_magnitude (- x))
      by (apply float32_magnitude_mono; lra).
    destruct (float32_of_magnitude (float32_magnitude (- x))) as [p|] eqn:Ep;
      [|reflexivity].
    destruct (float32_of_magnitude_mono _ _ p Hm Ep) as (q & -> & Hqp).
    cbn [float32_ge]. rewrite !Qle_bool_iff. intros Hq. lra.
Qed.

(** A threshold that float32 holds exactly is compared as it is. *)
Lemma np_ge_exact (s x t : Q) :
  np_float32 x = f32_finite t → (t == x)%Q →
  np_ge s x = true ↔ (x <= s)%Q.
Proof.
  intros Hx Ht. unfold np_ge. rewrite Hx. cbn [float32_ge].
  by rewrite Qle_bool_iff, Ht.
Qed.

(** The conversion on some doubles: 0.5 is kept, 0.7 and 0.1 are not, a
    tie goes to the even significand, half the smallest float32 goes to
    zero, and [2^128 - 2^103] is the first number to overflow. *)
Example np_float32_values :
  np_float32 (1 # 2) = f32_finite (1 # 2)
  ∧ np_float32 (3152519739159347 # 4503599627370496)
    = f32_finite (11744051 # 16777216)
  ∧ np_float32 (3602879701896397 # 36028797018963968)
    = f32_finite (13421773 # 134217728)
  ∧ np_float32 (16777217 # 1) = f32_finite (16777216 # 1)
  ∧ np_float32 (- 16777219 # 1) = f32_finite (- 16777220 # 1)
  ∧ np_float32 (1 # 2 ^ 150) = f32_finite 0
  ∧ np_float32 (inject_Z (2 ^ 128 - 2 ^ 103 - 1))
    = f32_finite (inject_Z (2 ^ 128 - 2 ^ 104))
  ∧ np_float32 (inject_Z (2 ^ 128 - 2 ^ 103)) = f32_inf.
Proof. vm_compute. repeat split. Qed.

(** ** The vision gateway *)

Section DetectLoop.

Variables (boxes : list (list Q)) (classes scores : list Q).
Variable score_threshold : Q.
Hypothesis boxes_parallel : length boxes = length scores.
Hypothesis classes_parallel : length classes = length scores.

Lemma lookup_nth {A} (l : list A) (i : nat) (dflt : A) :
  (i < length l)%nat → l !! i = Some (nth i l dflt).
Proof.
  intros Hi. destruct (lookup_lt_is_Some_2 l i Hi) as [x Hx].
  rewrite Hx. f_equal. symmetry. by apply nth_lookup_Some.
Qed.

Lemma py_index_nth {A} (l : list A) (i : nat) (dflt : A) :
  (i < length l)%nat → py_index l i = Ret (nth i l dflt).
Proof. intros Hi. unfold py_index. by rewrite (lookup_nth l i dflt Hi). Qed.

(** With parallel arrays no index fails, and the loop appends the entries
    of the indices that pass, in the order of the range. *)
Lemma detect_loop_parallel (range : list nat) (acc : list (gmap string pyval)) :
  Forall (fun i => (i < length scores)%nat) range →
  VisionProcessor.detect_loop boxes classes scores score_threshold range acc
  = Ret (acc ++ map (entry_at boxes classes scores)
                    (List.filter (passes scores score_threshold) range)).
Proof.
  intros Hrange. revert acc.
  induction Hrange as [|i range Hi _ IH]; intros acc.
  - cbn. by rewrite app_nil_r.
  - cbn [VisionProcessor.detect_loop List.filter].
    rewrite (py_index_nth scores i 0%Q Hi). cbn [obind].
    unfold passes at 1. rewrite (lookup_nth scores i 0%Q Hi).
    destruct (np_ge (nth i scores 0%Q) score_threshold).
    + rewrite (py_index_nth boxes i []) by (by rewrite boxes_parallel).
      rewrite (py_index_nth classes i 0%Q) by (by rewrite classes_parallel).
      cbn [obind]. rewrite IH. cbn [map]. by rewrite <- app_assoc.
    + apply IH.
Qed.

End DetectLoop.

Lemma kept_elem (scores : list Q) (thr : Q) (i : nat) :
  i ∈ kept scores thr ↔ ∃ x, scores !! i = Some x ∧ np_ge x thr = true.
Proof.
  unfold kept. rewrite list_elem_of_In, filter_In, in_seq. unfold passes.
  split.
  - intros [_ Hp]. destruct (scores !! i) as [x|]; [|discriminate].
    by exists x.
  - intros (x & Hx & Hge). rewrite Hx. split.
    + apply lookup_lt_Some in Hx. lia.
    + exact Hge.
Qed.

Lemma kept_NoDup (scores : list Q) (thr : Q) : NoDup (kept scores thr).
Proof. apply NoDup_ListNoDup, List.NoDup_filter, List.seq_NoDup. Qed.

Lemma StronglySorted_seq (a n : nat) : StronglySorted lt (seq a n).
Proof.
  revert a. induction n as [|n IH]; intros a; cbn [seq]; constructor.
  - apply IH.
  - apply Forall_forall. intros i Hi.
    apply list_elem_of_In, in_seq in Hi. lia.
Qed.

Lemma StronglySorted_filter_bool {A} (R : A → A → Prop) (f : A → bool)
    (l : list A) :
  StronglySorted R l → StronglySorted R (List.filter f l).
Proof.
  induction 1 as [|x l _ IH Hx]; cbn [List.filter]; [constructor|].
  destruct (f x); [|exact IH]. constructor; [exact IH|].
  apply Forall_forall. intros y Hy.
  apply list_elem_of_In, filter_In in Hy. destruct Hy as [Hy _].
  apply (proj1 (Forall_forall _ _) Hx). by apply list_elem_of_In.
Qed.

Lemma kept_sorted (scores : list Q) (thr : Q) :
  StronglySorted lt (kept scores thr).
Proof. apply StronglySorted_filter_bool, StronglySorted_seq. Qed.

(** When preprocessing and inference succeed on parallel arrays and no
    interrupt is pending, [detect_objects] returns the entries of the
    indices that pass, in the order of the indices. *)
Lemma detect_objects_parallel (self : VisionProcessor.t) (s : script)
    (frame fr : frame) (thr : Q) (st : state)
    (boxes : list (list Q)) (classes scores : list Q) (b h w c : nat) :
  VisionProcessor.input_shape self = [b; h; w; c] →
  cv2_resize s = Ok fr →
  run_inference s = Ok {| detection_boxes := Some boxes;
                          detection_classes := Some classes;
                          detection_scores := Some scores |} →
  pending st = None →
  length boxes = length scores →
  length classes = length scores →
  fst (VisionProcessor.detect_objects self s frame thr st)
  = Ret (map (entry_at boxes classes scores) (kept scores thr)).
Proof.
  intros Hshape Hresize Hinfer Hpend Hb Hc.
  unfold VisionProcessor.detect_objects, VisionProcessor.preprocess_frame,
    VisionProcessor.collect, bind, try_except, log, call, lift, ret.
  cbn [trace pending]. rewrite Hshape, Hresize, Hinfer, Hpend.
  cbn [trace pending detection_boxes detection_classes detection_scores default].
  rewrite (detect_loop_parallel boxes classes scores thr Hb Hc).
  - reflexivity.
  - apply Forall_forall. intros i Hi.
    apply list_elem_of_In, in_seq in Hi. unfold id in Hi. lia.
Qed.

Lemma entry_at_fields (boxes : list (list Q)) (classes scores : list Q) (i : nat) :
  entry_at boxes classes scores i !! "box"
    = Some (PyList (map PyFloat (nth i boxes [])))
  ∧ entry_at boxes classes scores i !! "class"
    = Some (PyInt (py_int (nth i classes 0%Q)))
  ∧ entry_at boxes classes scores i !! "score"
    = Some (PyFloat (py_float (nth i scores 0%Q))).
Proof.
  unfold entry_at, VisionProcessor.detection. repeat split; by simplify_map_eq.
Qed.

(** C4 (as the code has it).  When inference returns parallel arrays,
    [detect_objects] returns one detection for each index whose score is
    at or above the threshold as float32 holds it, and nothing else; every
    returned detection has such a score.  When float32 holds the threshold
    exactly, as it does the default 0.5, these are the indices and the
    detections whose score is at or above the threshold itself. *)
Theorem detect_objects_keeps_exactly_threshold (self : VisionProcessor.t)
    (s : script) (frame fr : frame) (thr : Q) (st : state)
    (boxes : list (list Q)) (classes scores : list Q) (b h w c : nat) :
  VisionProcessor.input_shape self = [b; h; w; c] →
  cv2_resize s = Ok fr →
  run_inference s = Ok {| detection_boxes := Some boxes;
                          detection_classes := Some classes;
                          detection_scores := Some scores |} →
  pending st = None →
  length boxes = length scores →
  length classes = length scores →
  ∃ idx : list nat,
    NoDup idx
    ∧ (∀ i, i ∈ idx ↔
            ∃ x, scores !! i = Some x ∧ float32_ge x (np_float32 thr) = true)
    ∧ fst (VisionProcessor.detect_objects self s frame thr st)
      = Ret (map (entry_at boxes classes scores) idx)
    ∧ Forall (fun d => ∃ x, d !! "score" = Some (PyFloat x)
                            ∧ float32_ge x (np_float32 thr) = true)
             (map (entry_at boxes classes scores) idx)
    ∧ (∀ t, np_float32 thr = f32_finite t → (t == thr)%Q →
         (∀ i, i ∈ idx ↔ ∃ x, scores !! i = Some x ∧ (thr <= x)%Q)
         ∧ Forall (fun d => ∃ x, d !! "score" = Some (PyFloat x)
                                 ∧ (thr <= x)%Q)
                  (map (entry_at boxes classes scores) idx)).
Proof.
  intros Hshape Hresize Hinfer Hpend Hb Hc.
  assert (Hscore : ∀ i, i ∈ kept scores thr →
            ∃ x, entry_at boxes classes scores i !! "score" = Some (PyFloat x)
                 ∧ scores !! i = Some x ∧ np_ge x thr = true).
  { intros i Hi. apply kept_elem in Hi. destruct Hi as (x & Hx & Hge).
    exists x. split; [|done].
    destruct (entry_at_fields boxes classes scores i) as (_ & _ & ->).
    unfold py_float. do 2 f_equal. by apply nth_lookup_Some. }
  exists (kept scores thr). split; [apply kept_NoDup|].
  split; [apply kept_elem|]. split; [by eapply detect_objects_parallel|].
  split.
  - apply Forall_forall. intros d Hd.
    apply list_elem_of_In, in_map_iff in Hd. destruct Hd as (i & <- & Hi).
    apply list_elem_of_In, Hscore in Hi. destruct Hi as (x & Hd & _ & Hge).
    by exists x.
  - intros t Ht Heq. split.
    + intros i. rewrite kept_elem. split; intros (x & Hx & Hge); exists x;
        (split; [exact Hx|]); by apply (np_ge_exact x thr t Ht Heq).
    + apply Forall_forall. intros d Hd.
      apply list_elem_of_In, in_map_iff in Hd. destruct Hd as (i & <- & Hi).
      apply list_elem_of_In, Hscore in Hi. destruct Hi as (x & Hd & _ & Hge).
      exists x. split; [exact Hd|]. by apply (np_ge_exact x thr t Ht Heq).
Qed.

Lemma detect_objects_keeps_exactly_threshold_witness :
  ∃ idx : list nat,
    NoDup idx
    ∧ (∀ i, i ∈ idx ↔
            ∃ x, [9 # 10; 3 # 10] !! i = Some x
                 ∧ float32_ge x (np_float32 (1 # 2)) = true)
    ∧ fst (VisionProcessor.detect_objects sample_vision
             (scripted two_candidates) sample_frame (1 # 2) (start None))
      = Ret (map (entry_at [sample_box; sample_box] [2 # 1; 15 # 2]
                           [9 # 10; 3 # 10]) idx)
    ∧ Forall (fun d => ∃ x, d !! "score" = Some (PyFloat x)
                            ∧ float32_ge x (np_float32 (1 # 2)) = true)
             (map (entry_at [sample_box; sample_box] [2 # 1; 15 # 2]
                            [9 # 10; 3 # 10]) idx)
    ∧ (∀ t, np_float32 (1 # 2) = f32_finite t → (t == 1 # 2)%Q →
         (∀ i, i ∈ idx ↔ ∃ x, [9 # 10; 3 # 10] !! i = Some x ∧ (1 # 2 <= x)%Q)
         ∧ Forall (fun d => ∃ x, d !! "score" = Some (PyFloat x)
                                 ∧ (1 # 2 <= x)%Q)
                  (map (entry_at [sample_box; sample_box] [2 # 1; 15 # 2]
                                 [9 # 10; 3 # 10]) idx)).
Proof.
  apply (detect_objects_keeps_exactly_threshold sample_vision
           (scripted two_candidates) sample_frame sample_frame (1 # 2)
           (start None) [sample_box; sample_box] [2 # 1; 15 # 2]
           [9 # 10; 3 # 10] 1 1 1 3); reflexivity.
Defined.

(** C4 fails as stated: against the threshold 0.7 a score of float32 0.7
    is returned, although it is below the threshold.  NumPy compares the
    array element with the threshold converted to float32, and that
    conversion rounds 0.7 down to this very score. *)
Lemma detect_objects_returns_score_below_threshold :
  (float32_0_7 < double_0_7)%Q
  ∧ fst (VisionProcessor.detect_objects sample_vision (scripted borderline)
           sample_frame double_0_7 (start None))
    = Ret [VisionProcessor.detection sample_box 2 float32_0_7].
Proof. split; vm_compute; reflexivity. Qed.

(** C10.  The returned detections follow the increasing order of the
    indices that pass the comparison with the threshold (which NumPy makes
    in float32), and the detection for index [i] carries [boxes[i]],
    [int(classes[i])] and [float(scores[i])]. *)
Theorem detect_objects_preserves_index_order (self : VisionProcessor.t)
    (s : script) (frame fr : frame) (thr : Q) (st : state)
    (boxes : list (list Q)) (classes scores : list Q) (b h w c : nat) :
  VisionProcessor.input_shape self = [b; h; w; c] →
  cv2_resize s = Ok fr →
  run_inference s = Ok {| detection_boxes := Some boxes;
                          detection_classes := Some classes;
                          detection_scores := Some scores |} →
  pending st = None →
  length boxes = length scores →
  length classes = length scores →
  ∃ (idx : list nat) (ds : list (gmap string pyval)),
    fst (VisionProcessor.detect_objects self s frame thr st) = Ret ds
    ∧ StronglySorted lt idx
    ∧ (∀ i, i ∈ idx ↔
            ∃ x, scores !! i = Some x ∧ float32_ge x (np_float32 thr) = true)
    ∧ length ds = length idx
    ∧ ∀ j i, idx !! j = Some i →
        ∃ d box cl sc,
          ds !! j = Some d
          ∧ boxes !! i = Some box ∧ classes !! i = Some cl
          ∧ scores !! i = Some sc
          ∧ d !! "box" = Some (PyList (map PyFloat box))
          ∧ d !! "class" = Some (PyInt (py_int cl))
          ∧ d !! "score" = Some (PyFloat (py_float sc)).
Proof.
  intros Hshape Hresize Hinfer Hpend Hb Hc.
  exists (kept scores thr), (map (entry_at boxes classes scores) (kept scores thr)).
  split; [by eapply detect_objects_parallel|].
  split; [apply kept_sorted|]. split; [apply kept_elem|].
  split; [apply length_map|].
  intros j i Hj.
  assert (Hi : (i < length scores)%nat).
  { apply list_elem_of_lookup_2, kept_elem in Hj.
    destruct Hj as (x & Hx & _). by apply lookup_lt_Some in Hx. }
  exists (entry_at boxes classes scores i), (nth i boxes []),
    (nth i classes 0%Q), (nth i scores 0%Q).
  split.
  { change (map ?f ?l) with (f <$> l). by rewrite list_lookup_fmap, Hj. }
  split; [apply lookup_nth; by rewrite Hb|].
  split; [apply lookup_nth; by rewrite Hc|].
  split; [by apply lookup_nth|].
  apply entry_at_fields.
Qed.

Lemma detect_objects_preserves_index_order_witness :
  ∃ (idx : list nat) (ds : list (gmap string pyval)),
    fst (VisionProcessor.detect_objects sample_vision
           (scripted two_candidates) sample_frame (1 # 2) (start None)) = Ret ds
    ∧ StronglySorted lt idx
    ∧ (∀ i, i ∈ idx ↔
            ∃ x, [9 # 10; 3 # 10] !! i = Some x
                 ∧ float32_ge x (np_float32 (1 # 2)) = true)
    ∧ length ds = length idx
    ∧ ∀ j i, idx !! j = Some i →
        ∃ d box cl sc,
          ds !! j = Some d
          ∧ [sample_box; sample_box] !! i = Some box
          ∧ [2 # 1; 15 # 2] !! i = Some cl
          ∧ [9 # 10; 3 # 10] !! i = Some sc
          ∧ d !! "box" = Some (PyList (map PyFloat box))
          ∧ d !! "class" = Some (PyInt (py_int cl))
          ∧ d !! "score" = Some (PyFloat (py_float sc)).
Proof.
  apply (detect_objects_preserves_index_order sample_vision
           (scripted two_candidates) sample_frame sample_frame (1 # 2)
           (start None) [sample_box; sample_box] [2 # 1; 15 # 2]
           [9 # 10; 3 # 10] 1 1 1 3); reflexivity.
Defined.

(** ** The monad: events, the interrupt clock, contained exceptions *)

Section Steps.

Variable p : event → bool.

Lemma steps_ret {A} (a : A) : steps p (ret a).
Proof.
  intros st o st' [= <- <-]. split.
  - exists []. by rewrite app_nil_r.
  - unfold clock. destruct (pending st); [right|]; eauto.
Qed.

Lemma steps_raise {A} (e : string) : steps p (@raise A e).
Proof.
  intros st o st' [= <- <-]. split.
  - exists []. by rewrite app_nil_r.
  - unfold clock. destruct (pending st); [right|]; eauto.
Qed.

Lemma steps_lift {A} (o : outcome A) : o ≠ Intr → steps p (lift o).
Proof.
  intros Ho st o' st' [= <- <-]. split.
  - exists []. by rewrite app_nil_r.
  - unfold clock. destruct (pending st); [right|]; eauto.
Qed.

Lemma steps_log (e : event) : p e = true → steps p (log e).
Proof.
  intros He st o st' [= <- <-]. split.
  - exists [e]. cbn. by rewrite He.
  - unfold clock. cbn. destruct (pending st); [right|]; eauto.
Qed.

Lemma steps_call {A} (c : engine_method) (a : answer A) :
  p (Call c) = true → steps p (call c a).
Proof.
  intros Hc st o st' H. unfold call in H. split.
  - exists [Call c]. cbn. rewrite Hc.
    destruct (pending st) as [[|k]|]; injection H as <- <-; auto.
  - unfold clock.
    destruct (pending st) as [[|k]|]; injection H as <- <-; cbn.
    + by left.
    + right. split; [by destruct a | exists k; split; [done | lia]].
    + split; [done | by destruct a].
Qed.

Lemma clock_trans {A B} (st st1 st2 : state) (a : A) (o : outcome B) :
  clock st (Ret a) st1 → clock st1 o st2 → clock st o st2.
Proof.
  unfold clock. destruct (pending st) as [k|].
  - intros [[[=] _] | [_ (k1 & -> & Hk1)]].
    intros [? | [Ho (k2 & Hk2 & Hle)]]; [by left|].
    right. split; [done|]. exists k2. split; [done | lia].
  - intros [-> _]. done.
Qed.

Lemma steps_bind {A B} (c : M A) (k : A → M B) :
  steps p c → (∀ a, steps p (k a)) → steps p (bind c k).
Proof.
  intros Hc Hk st o st' H. unfold bind in H.
  destruct (c st) as [[a|e|] st1] eqn:E.
  - destruct (Hc _ _ _ E) as [(evs1 & Ht1 & Hp1) Hclock1].
    destruct (Hk a _ _ _ H) as [(evs2 & Ht2 & Hp2) Hclock2]. split.
    + exists (evs1 ++ evs2). rewrite Ht2, Ht1, app_assoc. split; [done|].
      rewrite forallb_app, Hp1, Hp2. done.
    + by eapply clock_trans.
  - injection H as <- <-. destruct (Hc _ _ _ E) as [Hev Hclock]. split; [done|].
    unfold clock in *. destruct (pending st);
      [destruct Hclock as [[[=] _]|[_ ?]]; right | destruct Hclock]; done.
  - injection H as <- <-. destruct (Hc _ _ _ E) as [Hev Hclock]. split; [done|].
    unfold clock in *. destruct (pending st);
      [destruct Hclock as [[_ ?]|[? _]]; [left|] | destruct Hclock]; done.
Qed.

Lemma steps_try_except {A} (body : M A) (handler : string → M A) :
  steps p body → (∀ e, steps p (handler e)) → steps p (try_except body handler).
Proof.
  intros Hb Hh st o st' H. unfold try_except in H.
  destruct (body st) as [[a|e|] st1] eqn:E.
  - injection H as <- <-. by apply Hb.
  - destruct (Hb _ _ _ E) as [(evs1 & Ht1 & Hp1) Hclock1].
    destruct (Hh e _ _ _ H) as [(evs2 & Ht2 & Hp2) Hclock2]. split.
    + exists (evs1 ++ evs2). rewrite Ht2, Ht1, app_assoc. split; [done|].
      rewrite forallb_app, Hp1, Hp2. done.
    + unfold clock in *. destruct (pending st) as [k|].
      * destruct Hclock1 as [[[=] _] | [_ (k1 & Hk1 & Hle1)]].
        rewrite Hk1 in Hclock2.
        destruct Hclock2 as [? | [Ho (k2 & Hk2 & Hle2)]]; [by left|].
        right. split; [done|]. exists k2. split; [done | lia].
      * destruct Hclock1 as [Hn _]. by rewrite Hn in Hclock2.
  - injection H as <- <-. by apply Hb.
Qed.

End Steps.

Section Contained.

Lemma contained_ret {A} (a : A) : contained (ret a).
Proof. by intros st o st' [= <- <-] e. Qed.

Lemma contained_lift {A} (o : outcome A) :
  (∀ e, o ≠ Exc e) → contained (lift o).
Proof. by intros Ho st o' st' [= <- <-]. Qed.

Lemma contained_log (e : event) : contained (log e).
Proof. by intros st o st' [= <- <-] e'. Qed.

Lemma contained_call_Ok {A} (c : engine_method) (a : A) :
  contained (call c (Ok a)).
Proof.
  intros st o st' H e. unfold call in H.
  destruct (pending st) as [[|k]|]; by injection H as <- <-.
Qed.

Lemma contained_bind {A B} (c : M A) (k : A → M B) :
  contained c → (∀ a, contained (k a)) → contained (bind c k).
Proof.
  intros Hc Hk st o st' H e. unfold bind in H.
  destruct (c st) as [[a|e1|] st1] eqn:E.
  - by eapply Hk.
  - by destruct (Hc _ _ _ E e1).
  - by injection H as <- <-.
Qed.

(** A [try] whose handler lets nothing escape lets nothing escape, whatever
    its body does. *)
Lemma contained_try_except {A} (body : M A) (handler : string → M A) :
  (∀ e, contained (handler e)) → contained (try_except body handler).
Proof.
  intros Hh st o st' H e. unfold try_except in H.
  destruct (body st) as [[a|e1|] st1] eqn:E.
  - by injection H as <- <-.
  - by eapply Hh.
  - by injection H as <- <-.
Qed.

End Contained.

(** ** The gateways, one method at a time *)

Ltac steps_auto :=
  repeat lazymatch goal with
    | |- steps _ (ret _) => apply steps_ret
    | |- steps _ (raise _) => apply steps_raise
    | |- steps _ (bind _ _) => apply steps_bind
    | |- steps _ (try_except _ _) => apply steps_try_except
    | |- steps _ (log _) => apply steps_log
    | |- steps _ (call _ _) => apply steps_call
    | |- steps _ (match ?x with _ => _ end) => destruct x
    | |- ∀ _, _ => intro
    end.

Ltac contained_auto :=
  repeat lazymatch goal with
    | |- contained (ret _) => apply contained_ret
    | |- contained (log _) => apply contained_log
    | |- contained (call _ (Ok _)) => apply contained_call_Ok
    | |- contained (try_except _ _) => apply contained_try_except
    | |- contained (bind _ _) => apply contained_bind
    | |- contained (match ?x with _ => _ end) => destruct x
    | |- ∀ _, _ => intro
    end.

Lemma py_get_not_Intr (o : pyobj) (key : string) (dflt : pyval) :
  py_get o key dflt ≠ Intr.
Proof. by destruct o. Qed.

Lemma py_index_not_Intr {A} (l : list A) (i : nat) : py_index l i ≠ Intr.
Proof. unfold py_index. by destruct (l !! i). Qed.

Lemma detect_loop_not_Intr (boxes : list (list Q)) (classes scores : list Q)
    (thr : Q) (range : list nat) (acc : list (gmap string pyval)) :
  VisionProcessor.detect_loop boxes classes scores thr range acc ≠ Intr.
Proof.
  revert acc. induction range as [|i range IH]; intros acc; [done|].
  cbn [VisionProcessor.detect_loop]. unfold py_index.
  destruct (scores !! i) as [x|]; [|done]. cbn [obind].
  destruct (np_ge x thr); [|apply IH].
  destruct (boxes !! i); [|done]. cbn [obind].
  destruct (classes !! i); [|done]. cbn [obind]. apply IH.
Qed.

Section GatewaySteps.

Variable p : event → bool.
Hypothesis p_loop : ∀ e, is_shutdown e = false → is_sleep e = false → p e = true.

Lemma steps_capture_audio (self : AudioProcessor.t) (s : script) :
  steps p (AudioProcessor.capture_audio self s).
Proof. unfold AudioProcessor.capture_audio. steps_auto; by apply p_loop. Qed.

Lemma steps_process_stt (self : AudioProcessor.t) (s : script) (data : bytes) :
  steps p (AudioProcessor.process_stt self s data).
Proof.
  unfold AudioProcessor.process_stt. steps_auto; try by apply p_loop.
  apply steps_lift, py_get_not_Intr.
Qed.

Lemma steps_speak (self : AudioProcessor.t) (s : script) (text : string) :
  steps p (AudioProcessor.speak self s text).
Proof. unfold AudioProcessor.speak. steps_auto; by apply p_loop. Qed.

Lemma steps_capture_frame (self : VisionProcessor.t) (s : script) :
  steps p (VisionProcessor.capture_frame self s).
Proof. unfold VisionProcessor.capture_frame. steps_auto; by apply p_loop. Qed.

Lemma steps_preprocess_frame (self : VisionProcessor.t) (s : script) (f : frame) :
  steps p (VisionProcessor.preprocess_frame self s f).
Proof. unfold VisionProcessor.preprocess_frame. steps_auto; by apply p_loop. Qed.

Lemma steps_detect_objects (self : VisionProcessor.t) (s : script) (f : frame)
    (thr : Q) :
  steps p (VisionProcessor.detect_objects self s f thr).
Proof.
  unfold VisionProcessor.detect_objects.
  apply steps_bind; [by apply steps_log, p_loop | intros _].
  apply steps_try_except; [|intros _; apply steps_ret].
  apply steps_bind; [apply steps_preprocess_frame | intros _].
  apply steps_bind; [by apply steps_call, p_loop | intros out].
  apply steps_lift, detect_loop_not_Intr.
Qed.

Lemma steps_iteration (a : AudioProcessor.t) (v : VisionProcessor.t)
    (d : DecisionEngine.t) (s : script) :
  (∀ q, p (Call (e_sleep q)) = true) → steps p (iteration a v d s).
Proof.
  intros Hsleep. unfold iteration.
  apply steps_bind; [apply steps_capture_audio | intros data].
  apply steps_bind; [apply steps_process_stt | intros text].
  apply steps_bind; [apply steps_capture_frame | intros [f|]];
    [|apply steps_ret].
  apply steps_bind; [apply steps_detect_objects | intros ds].
  apply steps_bind.
  { apply steps_lift. by rewrite process_inputs_cases. }
  intros warning. apply steps_bind.
  - destruct (negb _); [apply steps_speak | apply steps_ret].
  - intros _. by apply steps_call.
Qed.

End GatewaySteps.

Lemma contained_capture_audio (self : AudioProcessor.t) (s : script) :
  contained (AudioProcessor.capture_audio self s).
Proof. unfold AudioProcessor.capture_audio. contained_auto. Qed.

Lemma contained_process_stt (self : AudioProcessor.t) (s : script) (data : bytes) :
  contained (AudioProcessor.process_stt self s data).
Proof. unfold AudioProcessor.process_stt. contained_auto. Qed.

Lemma contained_speak (self : AudioProcessor.t) (s : script) (text : string) :
  contained (AudioProcessor.speak self s text).
Proof. unfold AudioProcessor.speak. contained_auto. Qed.

Lemma contained_detect_objects (self : VisionProcessor.t) (s : script)
    (f : frame) (thr : Q) :
  contained (VisionProcessor.detect_objects self s f thr).
Proof. unfold VisionProcessor.detect_objects. contained_auto. Qed.

Lemma contained_audio_close (self : AudioProcessor.t) (l : lifecycle) :
  contained (AudioProcessor.close self l).
Proof. unfold AudioProcessor.close. contained_auto. Qed.

(** [capture_frame] has no handler of its own: it lets nothing escape only
    when the camera answers. *)
Lemma contained_capture_frame (self : VisionProcessor.t) (s : script)
    (r : option frame) :
  cap_read s = Ok r → contained (VisionProcessor.capture_frame self s).
Proof.
  intros Hr. unfold VisionProcessor.capture_frame. rewrite Hr. contained_auto.
Qed.

Lemma contained_iteration (a : AudioProcessor.t) (v : VisionProcessor.t)
    (d : DecisionEngine.t) (s : script) (r : option frame) :
  cap_read s = Ok r → contained (iteration a v d s).
Proof.
  intros Hr. unfold iteration.
  apply contained_bind; [apply contained_capture_audio | intros data].
  apply contained_bind; [apply contained_process_stt | intros text].
  apply contained_bind; [by eapply contained_capture_frame | intros [f|]];
    [|apply contained_ret].
  apply contained_bind; [apply contained_detect_objects | intros ds].
  apply contained_bind.
  { apply contained_lift. by rewrite process_inputs_cases. }
  intros warning. apply contained_bind.
  - destruct (negb _); [apply contained_speak | apply contained_ret].
  - intros _. apply contained_call_Ok.
Qed.


(** ** The loop and the interrupt *)





Lemma count_app (p : event → bool) (l1 l2 : list event) :
  count p (l1 ++ l2) = (count p l1 + count p l2)%nat.
Proof. unfold count. by rewrite List.filter_app, length_app. Qed.

Lemma count_none (p q : event → bool) (l : list event) :
  (∀ e, q e = true → p e = false) → forallb q l = true → count p l = 0%nat.
Proof.
  intros Hpq. unfold count. induction l as [|e l IH]; [done|].
  cbn [forallb List.filter]. intros [He Hl]%andb_prop.
  rewrite (Hpq e He). by apply IH.
Qed.

(** The [finally] block, entered with no interrupt pending, enters each
    [close()] once, releases the camera once and does not terminate
    PyAudio twice. *)
Lemma shutdown_once (a : AudioProcessor.t) (v : VisionProcessor.t)
    (l : lifecycle) (st : state) :
  pending st = None →
  ∃ o evs st', shutdown a v l st = (o, st')
    ∧ trace st' = trace st ++ evs ∧ pending st' = None ∧ o ≠ Intr
    ∧ count is_audio_close evs = 1%nat ∧ count is_vision_close evs = 1%nat
    ∧ count is_cap_release evs = 1%nat ∧ (count is_terminate evs ≤ 1)%nat.
Proof.
  intros Hn.
  unfold shutdown, AudioProcessor.close, VisionProcessor.close, bind,
    try_except, log, call, ret.
  cbn [trace pending]. rewrite Hn.
  destruct (stop_stream l), (stream_close l), (pyaudio_terminate l),
    (cap_release l); cbn [trace pending];
    eexists _, _, _; (split; [reflexivity|]); rewrite <- ?app_assoc;
    (split; [reflexivity|]); repeat split; cbn; (done || lia).
Qed.

Lemma loop_event_not_shutdown (p : event → bool) (e : event) :
  (∀ e', p e' = true → is_shutdown e' = true) →
  negb (is_shutdown e) = true → p e = false.
Proof.
  intros Hp He. destruct (p e) eqn:E; [|done].
  apply Hp in E. by rewrite E in He.
Qed.





(** ** The audio gateway *)

(** C7.  On an empty chunk [process_stt] returns the empty string; the only
    event is its own entry, so neither [AcceptWaveform] nor [Result] is
    called, and the interrupt clock does not move. *)
Theorem process_stt_empty_skips_recognizer (self : AudioProcessor.t)
    (s : script) (st : state) :
  ∃ st', AudioProcessor.process_stt self s [] st = (Ret (PyStr ""), st')
    ∧ trace st' = trace st ++ [Enter (m_process_stt [])]
    ∧ pending st' = pending st
    ∧ count is_recognizer_call (trace st')
      = count is_recognizer_call (trace st).
Proof.
  eexists. split; [reflexivity|]. cbn [trace pending].
  repeat split. rewrite count_app. cbn. lia.
Qed.

(** ** One iteration of the loop *)

(** C9.  In an iteration in which the recognizer hears "hello" and the
    frame yields the single detection of class 2 with score 0.9, the loop
    enters [speak] exactly once, with the warning and not with the
    recognized text; the iteration completes. *)
Theorem iteration_speaks_warning_once (a : AudioProcessor.t)
    (v : VisionProcessor.t) (s : script) (st : state)
    (b0 : Byte.byte) (data : bytes) (r : gmap string pyval)
    (f fr : frame) (box : list Q) (b h w c : nat) :
  stream_read s = Ok (b0 :: data) →
  AcceptWaveform s = Ok true →
  Result s = Ok (PyDict r) →
  r !! "text" = Some (PyStr "hello") →
  cap_read s = Ok (Some f) →
  VisionProcessor.input_shape v = [b; h; w; c] →
  cv2_resize s = Ok fr →
  run_inference s = Ok {| detection_boxes := Some [box];
                          detection_classes := Some [2 # 1];
                          detection_scores := Some [9 # 10] |} →
  pending st = None →
  ∃ evs st',
    iteration a v (DecisionEngine.init (Some [1; 2; 3])) s st = (Ret tt, st')
    ∧ trace st' = trace st ++ evs
    ∧ List.filter is_speak evs = [Enter (m_speak "Warning: Obstacle ahead!")].
Proof.
  intros Hread Hacc Hres Htext Hcap Hshape Hresize Hinfer Hpend.
  unfold iteration, AudioProcessor.capture_audio, AudioProcessor.process_stt,
    VisionProcessor.capture_frame, VisionProcessor.detect_objects,
    VisionProcessor.preprocess_frame, VisionProcessor.collect,
    AudioProcessor.speak, bind, try_except, log, call, ret, lift.
  cbn [trace pending].
  rewrite Hpend, Hread, Hacc, Hres, Hcap, Hshape, Hresize, Hinfer.
  cbn [trace pending py_get detection_boxes detection_classes
       detection_scores default from_option id]. rewrite Htext.
  cbn [from_option id].
  change (VisionProcessor.detect_loop [box] [2 # 1] [9 # 10]
            VisionProcessor.default_score_threshold (seq 0 (length [9 # 10])) [])
    with (Ret [VisionProcessor.detection box 2 (9 # 10)]).
  cbn iota beta.
  assert (Hwarn : DecisionEngine.process_inputs
                    (DecisionEngine.init (Some [1; 2; 3])) (PyStr "hello")
                    (map PyDict [VisionProcessor.detection box 2 (9 # 10)])
                  = Ret "Warning: Obstacle ahead!") by (vm_compute; reflexivity).
  rewrite Hwarn.
  change (negb ("Warning: Obstacle ahead!" =? "")%string) with true.
  change ("Warning: Obstacle ahead!" =? "")%string with false.
  cbn [trace pending].
  destruct (engine_say s), (engine_runAndWait s); cbn [trace pending];
    eexists _, _; (split; [reflexivity|]); cbn [trace];
    rewrite <- ?app_assoc; (split; [reflexivity|]); reflexivity.
Qed.

Lemma iteration_speaks_warning_once_witness :
  ∃ evs st',
    iteration sample_audio sample_vision (DecisionEngine.init (Some [1; 2; 3]))
      (scripted one_obstacle) (start None) = (Ret tt, st')
    ∧ trace st' = trace (start None) ++ evs
    ∧ List.filter is_speak evs = [Enter (m_speak "Warning: Obstacle ahead!")].
Proof.
  apply (iteration_speaks_warning_once sample_audio sample_vision
           (scripted one_obstacle) (start None) Byte.x01 [Byte.x02]
           {[ "text" := PyStr "hello" ]} sample_frame sample_frame sample_box
           1 1 1 3); reflexivity.
Defined.

Lemma steps_bind_yields {A B} (p : event → bool) (c : M A) (k : A → M B)
    (Q : A → Prop) :
  steps p c → yields c Q → (∀ a, Q a → steps p (k a)) → steps p (bind c k).
Proof.
  intros Hc HQ Hk st o st' H. unfold bind in H.
  destruct (c st) as [[a|e|] st1] eqn:E.
  - pose proof (HQ _ _ _ E) as Ha.
    destruct (Hc _ _ _ E) as [(evs1 & Ht1 & Hp1) Hclock1].
    destruct (Hk a Ha _ _ _ H) as [(evs2 & Ht2 & Hp2) Hclock2]. split.
    + exists (evs1 ++ evs2). rewrite Ht2, Ht1, app_assoc. split; [done|].
      by rewrite forallb_app, Hp1, Hp2.
    + by eapply clock_trans.
  - injection H as <- <-. destruct (Hc _ _ _ E) as [Hev Hclock]. split; [done|].
    unfold clock in *. destruct (pending st);
      [destruct Hclock as [[[=] _]|[_ ?]]; right | destruct Hclock]; done.
  - injection H as <- <-. destruct (Hc _ _ _ E) as [Hev Hclock]. split; [done|].
    unfold clock in *. destruct (pending st);
      [destruct Hclock as [[_ ?]|[? _]]; [left|] | destruct Hclock]; done.
Qed.

(** What [capture_frame] returns is what the camera answered. *)
Lemma capture_frame_yields (self : VisionProcessor.t) (s : script)
    (r : option frame) :
  cap_read s = Ok r → yields (VisionProcessor.capture_frame self s) (eq r).
Proof.
  intros Hr st a st' H.
  unfold VisionProcessor.capture_frame, bind, log, call, ret in H.
  cbn [trace pending] in H. rewrite Hr in H.
  destruct (pending st) as [[|k]|]; [discriminate| |];
    destruct r; by injection H as <- _.
Qed.

(** C3, what the code does.  When the camera misses the frame the iteration
    ends at [continue]: none of its events is a call of [time.sleep], and
    unless the interrupt arrives the iteration returns normally, so the next
    capture follows without the delay. *)
Theorem iteration_missed_frame_skips_sleep (a : AudioProcessor.t)
    (v : VisionProcessor.t) (d : DecisionEngine.t) (s : script) (st : state) :
  cap_read s = Ok None →
  ∃ o evs st', iteration a v d s st = (o, st')
    ∧ trace st' = trace st ++ evs
    ∧ count is_sleep evs = 0%nat
    ∧ (pending st = None → o = Ret tt).
Proof.
  intros Hr. destruct (iteration a v d s st) as [o st'] eqn:E.
  assert (Hsteps : steps (fun e => negb (is_sleep e)) (iteration a v d s)).
  { unfold iteration.
    assert (Hp : ∀ e, is_shutdown e = false → is_sleep e = false →
                      negb (is_sleep e) = true) by (by intros e _ ->).
    apply steps_bind; [by apply steps_capture_audio | intros data].
    apply steps_bind; [by apply steps_process_stt | intros text].
    apply (steps_bind_yields _ _ _ (eq None));
      [by apply steps_capture_frame | by apply capture_frame_yields |].
    intros ? <-. apply steps_ret. }
  destruct (Hsteps _ _ _ E) as [(evs & Ht & Hp) Hclock].
  exists o, evs, st'. split; [done|]. split; [done|]. split.
  - eapply count_none; [|exact Hp]. intros e He. cbn beta in He. by destruct (is_sleep e).
  - intros Hn. unfold clock in Hclock. rewrite Hn in Hclock.
    destruct Hclock as [_ Hni].
    pose proof (contained_iteration a v d s None Hr _ _ _ E) as Hne.
    destruct o as [[]|e|]; [done | by destruct (Hne e) | done].
Qed.

Lemma iteration_missed_frame_skips_sleep_witness :
  ∃ o evs st',
    iteration sample_audio sample_vision (DecisionEngine.init None)
      missed_frame (start None) = (o, st')
    ∧ trace st' = trace (start None) ++ evs
    ∧ count is_sleep evs = 0%nat
    ∧ (pending (start None) = None → o = Ret tt).
Proof.
  apply (iteration_missed_frame_skips_sleep sample_audio sample_vision
           (DecisionEngine.init None) missed_frame (start None)).
  reflexivity.
Defined.

(** For contrast: an iteration with a frame and without a warning ends with
    the call of [time.sleep(0.1)]. *)
Example iteration_with_frame_sleeps :
  snd (iteration sample_audio sample_vision (DecisionEngine.init None)
         (scripted {| detection_boxes := None; detection_classes := None;
                      detection_scores := None |}) (start None))
  = {| trace := [ Enter m_capture_audio; Call (e_stream_read 4000);
                  Enter (m_process_stt [Byte.x01; Byte.x02]);
                  Call (e_AcceptWaveform [Byte.x01; Byte.x02]); Call e_Result;
                  Enter m_capture_frame; Call e_cap_read;
                  Enter m_detect_objects; Call (e_resize 1 1);
                  Call e_run_inference; Call (e_sleep (1 # 10)) ];
       pending := None |}.
Proof. vm_compute. reflexivity. Qed.

Example iteration_missed_frame_trace :
  iteration sample_audio sample_vision (DecisionEngine.init None)
    missed_frame (start None)
  = (Ret tt,
     {| trace := [ Enter m_capture_audio; Call (e_stream_read 4000);
                   Enter (m_process_stt [Byte.x01; Byte.x02]);
                   Call (e_AcceptWaveform [Byte.x01; Byte.x02]);
                   Enter m_capture_frame; Call e_cap_read ];
        pending := None |}).
Proof. vm_compute. reflexivity. Qed.

(** ** Faults inside an iteration *)

(** Without a pending interrupt, a computation that respects the clock and
    lets no exception escape returns. *)
Lemma returns_intro {A} (p : event → bool) (c : M A) (st : state) :
  steps p c → contained c → pending st = None → returns c st (fun _ => True).
Proof.
  intros Hs Hc Hn. destruct (c st) as [o st'] eqn:E.
  destruct (Hs _ _ _ E) as [_ Hclock]. unfold clock in Hclock.
  rewrite Hn in Hclock. destruct Hclock as [Hn' Hni].
  destruct o as [a|e|]; [|by destruct (Hc _ _ _ E e) | done].
  by exists a, st'.
Qed.

Lemma capture_audio_degrades (a : AudioProcessor.t) (s : script) (st : state) :
  pending st = None →
  returns (AudioProcessor.capture_audio a s) st
    (fun data => ∀ e, stream_read s = Raise e → data = []).
Proof.
  intros Hn.
  unfold returns, AudioProcessor.capture_audio, bind, try_except, log, call, ret.
  cbn [trace pending]. rewrite Hn.
  destruct (stream_read s); eexists _, _; (split; [reflexivity|]); by split.
Qed.

Lemma process_stt_degrades (a : AudioProcessor.t) (s : script) (data : bytes)
    (st : state) :
  pending st = None →
  returns (AudioProcessor.process_stt a s data) st
    (fun text => ∀ e, AcceptWaveform s = Raise e ∨ Result s = Raise e →
                      text = PyStr "").
Proof.
  intros Hn.
  unfold returns, AudioProcessor.process_stt, bind, try_except, log, call,
    ret, lift.
  cbn [trace pending]. rewrite Hn.
  destruct data; [by eexists _, _|].
  destruct (AcceptWaveform s) as [[]|]; cbn [trace pending];
    [destruct (Result s) as [[r|x]|]; cbn [py_get trace pending]| |];
    eexists _, _; (split; [reflexivity|]); (split; [reflexivity|]);
    by intros ? [|].
Qed.

Lemma speak_degrades (a : AudioProcessor.t) (s : script) (text : string)
    (st : state) :
  pending st = None →
  returns (AudioProcessor.speak a s text) st (fun _ => True).
Proof.
  intros Hn.
  unfold returns, AudioProcessor.speak, bind, try_except, log, call, ret.
  cbn [trace pending]. rewrite Hn.
  destruct (String.eqb text ""); [by eexists _, _|].
  destruct (engine_say s); cbn [trace pending];
    [destruct (engine_runAndWait s); cbn [trace pending]|];
    by eexists _, _.
Qed.

Lemma detect_objects_degrades (v : VisionProcessor.t) (s : script) (f : frame)
    (thr : Q) (st : state) :
  pending st = None →
  returns (VisionProcessor.detect_objects v s f thr) st
    (fun ds => ∀ e, cv2_resize s = Raise e ∨ run_inference s = Raise e →
                    ds = []).
Proof.
  intros Hn.
  unfold returns, VisionProcessor.detect_objects,
    VisionProcessor.preprocess_frame, bind, try_except, log, call, ret, lift,
    raise.
  cbn [trace pending]. rewrite Hn.
  destruct (VisionProcessor.input_shape v) as [|? [|? [|? [|? [|]]]]];
    cbn [trace pending]; try by eexists _, _.
  destruct (cv2_resize s); cbn [trace pending]; [|by eexists _, _].
  destruct (run_inference s) as [out|]; cbn [trace pending]; [|by eexists _, _].
  pose proof (detect_loop_not_Intr (default [] (detection_boxes out))
                (default [] (detection_classes out))
                (default [] (detection_scores out)) thr
                (seq 0 (length (default [] (detection_scores out)))) []) as Hni.
  fold (VisionProcessor.collect out thr) in Hni.
  destruct (VisionProcessor.collect out thr); [| |done];
    eexists _, _; (split; [reflexivity|]); (split; [reflexivity|]);
    by intros ? [|].
Qed.

Lemma capture_frame_returns (v : VisionProcessor.t) (s : script)
    (r : option frame) (st : state) :
  pending st = None → cap_read s = Ok r →
  returns (VisionProcessor.capture_frame v s) st (eq r).
Proof.
  intros Hn Hr.
  unfold returns, VisionProcessor.capture_frame, bind, log, call, ret.
  cbn [trace pending]. rewrite Hn, Hr. destruct r; by eexists _, _.
Qed.

(** Without interrupt and with a camera that answers, the loop never ends. *)
Lemma while_True_runs (a : AudioProcessor.t) (v : VisionProcessor.t)
    (d : DecisionEngine.t) (ws : nat → script) :
  (∀ n, ∃ r, cap_read (ws n) = Ok r) →
  ∀ fuel n st, pending st = None →
    ∃ st', while_True fuel (fun n => iteration a v d (ws n)) n st = (None, st').
Proof.
  intros Hcam. induction fuel as [|fuel IH]; intros n st Hn; [by eexists|].
  cbn [while_True]. destruct (Hcam n) as [r Hr].
  destruct (returns_intro (fun _ => true) (iteration a v d (ws n)) st)
    as (x & st1 & -> & Hn1 & _); [| |done|by apply IH].
  - by apply steps_iteration.
  - by eapply contained_iteration.
Qed.

(** C5 (as the code has it).  With no interrupt pending, [capture_audio],
    [process_stt], [detect_objects] and [speak] return whatever their
    engines do, with the neutral value when an engine raises;
    [capture_frame] returns what the camera answered, null for a failed
    read; an iteration in which the camera answers completes, and a loop in
    which it always answers never ends. *)
Theorem recoverable_faults_are_contained (a : AudioProcessor.t)
    (v : VisionProcessor.t) (d : DecisionEngine.t) (s : script)
    (ws : nat → script) (fuel : nat) (st : state) :
  pending st = None →
  returns (AudioProcessor.capture_audio a s) st
    (fun data => ∀ e, stream_read s = Raise e → data = [])
  ∧ (∀ data, returns (AudioProcessor.process_stt a s data) st
       (fun text => ∀ e, AcceptWaveform s = Raise e ∨ Result s = Raise e →
                         text = PyStr ""))
  ∧ (∀ f thr, returns (VisionProcessor.detect_objects v s f thr) st
       (fun ds => ∀ e, cv2_resize s = Raise e ∨ run_inference s = Raise e →
                       ds = []))
  ∧ (∀ text, returns (AudioProcessor.speak a s text) st (fun _ => True))
  ∧ (∀ r, cap_read s = Ok r →
       returns (VisionProcessor.capture_frame v s) st (eq r))
  ∧ (∀ r, cap_read s = Ok r → returns (iteration a v d s) st (fun _ => True))
  ∧ ((∀ n, ∃ r, cap_read (ws n) = Ok r) →
     ∃ st', while_True fuel (fun n => iteration a v d (ws n)) 0 st = (None, st')).
Proof.
  intros Hn. split_and!.
  - by apply capture_audio_degrades.
  - intros data. by apply process_stt_degrades.
  - intros f thr. by apply detect_objects_degrades.
  - intros text. by apply speak_degrades.
  - intros r Hr. by apply capture_frame_returns.
  - intros r Hr. apply (returns_intro (fun _ => true)); [| |done].
    + by apply steps_iteration.
    + by eapply contained_iteration.
  - intros Hcam. by apply while_True_runs.
Qed.

Lemma recoverable_faults_are_contained_witness :
  returns (iteration sample_audio sample_vision (DecisionEngine.init None)
             missed_frame) (start None) (fun _ => True).
Proof.
  destruct (recoverable_faults_are_contained sample_audio sample_vision
              (DecisionEngine.init None) missed_frame (fun _ => missed_frame)
              1 (start None) eq_refl) as (_ & _ & _ & _ & _ & Hiter & _).
  apply (Hiter None). reflexivity.
Defined.

(** C5 fails as stated: [capture_frame] has no handler, so an exception of
    the camera's [read] leaves the gateway, the iteration and the loop. *)
Lemma camera_exception_ends_loop :
  fst (VisionProcessor.capture_frame sample_vision camera_fault (start None))
    = Exc "cv2.error"
  ∧ fst (iteration sample_audio sample_vision (DecisionEngine.init None)
           camera_fault (start None)) = Exc "cv2.error"
  ∧ fst (while_True 5
           (fun _ => iteration sample_audio sample_vision
                       (DecisionEngine.init None) camera_fault)
           0 (start None)) = Some (RaisedExc "cv2.error").
Proof. repeat split; vm_compute; reflexivity. Qed.

(** ** Runs on concrete inputs *)

(** The input of the stand-alone test at the end of [integration.py]. *)
Example process_inputs_standalone :
  DecisionEngine.process_inputs (DecisionEngine.init None)
    (PyStr "Proceed forward")
    [ PyDict (VisionProcessor.detection [1 # 10; 2 # 10; 3 # 10; 4 # 10] 1 (75 # 100));
      PyDict (VisionProcessor.detection [5 # 10; 6 # 10; 7 # 10; 8 # 10] 5 (65 # 100)) ]
  = Ret "Warning: Obstacle ahead!".
Proof. vm_compute. reflexivity. Qed.

(** [int] truncates toward zero. *)
Example py_int_truncates :
  py_int (5 # 2) = 2 ∧ py_int (- 5 # 2) = -2 ∧ py_int (7 # 1) = 7.
Proof. repeat split. Qed.

(** Of two candidates only the one at or above 0.5 is returned. *)
Example detect_objects_two_candidates :
  fst (VisionProcessor.detect_objects sample_vision (scripted two_candidates)
         sample_frame (1 # 2) (start None))
  = Ret [VisionProcessor.detection sample_box 2 (9 # 10)].
Proof. vm_compute. reflexivity. Qed.

(** When [detection_boxes] is shorter than [detection_scores], indexing it
    raises [IndexError] and the handler returns the empty list. *)
Example detect_objects_short_boxes :
  fst (VisionProcessor.detect_objects sample_vision
         (scripted {| detection_boxes := Some [];
                      detection_classes := Some [2 # 1];
                      detection_scores := Some [9 # 10] |})
         sample_frame (1 # 2) (start None))
  = Ret [].
Proof. vm_compute. reflexivity. Qed.

(** Without an interrupt the loop is still running after any number of
    iterations; here after three. *)
Example main_keeps_running : fst (main sample_world 3 (start None)) = None.
Proof. vm_compute. reflexivity. Qed.

(** An interrupt during the second iteration's camera read: the first
    iteration warns and sleeps, the second is cut short, then both gateways
    are closed. *)
Example main_interrupted_run :
  main sample_world 3 (start (Some 12%nat))
  = (Some (Ret tt),
     {| trace :=
          [ Enter m_capture_audio; Call (e_stream_read 4000);
            Enter (m_process_stt [Byte.x01; Byte.x02]);
            Call (e_AcceptWaveform [Byte.x01; Byte.x02]); Call e_Result;
            Enter m_capture_frame; Call e_cap_read;
            Enter m_detect_objects; Call (e_resize 1 1); Call e_run_inference;
            Enter (m_speak "Warning: Obstacle ahead!");
            Call (e_say "Warning: Obstacle ahead!"); Call e_runAndWait;
            Call (e_sleep (1 # 10));
            Enter m_capture_audio; Call (e_stream_read 4000);
            Enter (m_process_stt [Byte.x01; Byte.x02]);
            Call (e_AcceptWaveform [Byte.x01; Byte.x02]); Call e_Result;
            Enter m_capture_frame; Call e_cap_read;
            Enter m_audio_close; Call e_stop_stream; Call e_stream_close;
            Call e_terminate;
            Enter m_vision_close; Call e_cap_release ];
        pending := None |}).
Proof. vm_compute. reflexivity. Qed.

(** * Further properties of the code *)

(** ** The decision engine, beyond the claims *)

Lemma py_in_subset (v : pyval) (l l' : list Z) :
  (∀ z, z ∈ l → z ∈ l') → py_in v l = true → py_in v l' = true.
Proof.
  unfold py_in. rewrite !existsb_exists. intros Hsub (k & Hk & Hv).
  exists k. split; [|done].
  apply list_elem_of_In, Hsub, list_elem_of_In, Hk.
Qed.

(** X1.  With an empty obstacle list ([DecisionEngine(obstacle_classes=[])],
    which the constructor keeps because it tests [is not None]) no list of
    detections, well formed or not, gives a warning; and an empty detection
    list gives none whatever the obstacle list is. *)
Theorem process_inputs_nothing_to_warn (self : DecisionEngine.t)
    (audio_text : pyval) (ds : list pyobj) :
  DecisionEngine.obstacle_classes self = [] →
  DecisionEngine.process_inputs self audio_text ds = Ret ""
  ∧ DecisionEngine.obstacle_classes (DecisionEngine.init (Some [])) = []
  ∧ ∀ other : DecisionEngine.t,
      DecisionEngine.process_inputs other audio_text [] = Ret "".
Proof.
  intros Hobs. split; [|done].
  rewrite process_inputs_cases, Hobs.
  induction ds as [|[d|v] ds IH]; cbn [py_any py_get obind]; [done| |done].
  unfold py_in at 1. cbn [existsb]. exact IH.
Qed.

Lemma process_inputs_nothing_to_warn_witness :
  DecisionEngine.process_inputs (DecisionEngine.init (Some [])) (PyStr "hello")
    [PyDict {[ "class" := PyInt 1 ]}; PyOther PyNone] = Ret "".
Proof.
  apply (process_inputs_nothing_to_warn (DecisionEngine.init (Some []))
           (PyStr "hello") [PyDict {[ "class" := PyInt 1 ]}; PyOther PyNone]).
  reflexivity.
Defined.

(** X2.  Enlarging the obstacle list never takes a warning away, on any
    list of detections: the first hit can only come earlier. *)
Theorem process_inputs_obstacle_monotone (self self' : DecisionEngine.t)
    (audio_text : pyval) (ds : list pyobj) :
  (∀ z, z ∈ DecisionEngine.obstacle_classes self →
        z ∈ DecisionEngine.obstacle_classes self') →
  DecisionEngine.process_inputs self audio_text ds
    = Ret "Warning: Obstacle ahead!" →
  DecisionEngine.process_inputs self' audio_text ds
    = Ret "Warning: Obstacle ahead!".
Proof.
  intros Hsub. rewrite !process_inputs_cases.
  induction ds as [|[d|v] ds IH]; cbn [py_any py_get obind]; [done| |done].
  destruct (py_in _ (DecisionEngine.obstacle_classes self)) eqn:Hin.
  - by rewrite (py_in_subset _ _ _ Hsub Hin).
  - intros H. destruct (py_in _ (DecisionEngine.obstacle_classes self'));
      [done | by apply IH].
Qed.

Lemma process_inputs_obstacle_monotone_witness :
  DecisionEngine.process_inputs (DecisionEngine.init (Some [1; 2; 3; 7]))
    (PyStr "") [PyDict {[ "class" := PyInt 2 ]}; PyOther PyNone]
  = Ret "Warning: Obstacle ahead!".
Proof.
  apply (process_inputs_obstacle_monotone (DecisionEngine.init None)
           (DecisionEngine.init (Some [1; 2; 3; 7])) (PyStr "")
           [PyDict {[ "class" := PyInt 2 ]}; PyOther PyNone]).
  - intros z Hz. apply list_elem_of_In. apply list_elem_of_In in Hz.
    cbn in *. tauto.
  - vm_compute. reflexivity.
Defined.

(** X3.  A warning survives whatever is appended to the list, and a prefix
    of dictionaries without a hit does not influence the result. *)
Theorem process_inputs_app (self : DecisionEngine.t) (audio_text : pyval)
    (ds1 ds2 : list pyobj) :
  (DecisionEngine.process_inputs self audio_text ds1
     = Ret "Warning: Obstacle ahead!" →
   DecisionEngine.process_inputs self audio_text (ds1 ++ ds2)
     = Ret "Warning: Obstacle ahead!")
  ∧ (Forall is_dict ds1 →
     DecisionEngine.process_inputs self audio_text ds1 = Ret "" →
     DecisionEngine.process_inputs self audio_text (ds1 ++ ds2)
       = DecisionEngine.process_inputs self audio_text ds2).
Proof.
  rewrite !process_inputs_cases. split.
  - induction ds1 as [|[d|v] ds1 IH]; cbn [app py_any py_get obind];
      [done| |done].
    destruct (py_in _ _); [done | exact IH].
  - induction 1 as [|o ds1 [d ->] _ IH]; cbn [app py_any py_get obind];
      [done|].
    destruct (py_in _ _); [done | exact IH].
Qed.

(** ** The vision gateway, beyond the claims *)

Section DetectLoopGeneral.

Variables (boxes : list (list Q)) (classes scores : list Q).
Variable score_threshold : Q.

Let in_bounds (i : nat) : bool :=
  Nat.ltb i (length boxes) && Nat.ltb i (length classes).

(** Without any assumption on the lengths: the loop returns the entries of
    the passing indices when every one of them lies within [boxes] and
    [classes], and raises [IndexError] at the first one that does not. *)
Lemma detect_loop_general (range : list nat) (acc : list (gmap string pyval)) :
  Forall (fun i => (i < length scores)%nat) range →
  VisionProcessor.detect_loop boxes classes scores score_threshold range acc
  = if forallb in_bounds (List.filter (passes scores score_threshold) range)
    then Ret (acc ++ map (entry_at boxes classes scores)
                         (List.filter (passes scores score_threshold) range))
    else Exc "IndexError".
Proof.
  intros Hrange. revert acc.
  induction Hrange as [|i range Hi _ IH]; intros acc.
  - cbn. by rewrite app_nil_r.
  - cbn [VisionProcessor.detect_loop List.filter].
    rewrite (py_index_nth scores i 0%Q Hi). cbn [obind].
    unfold passes at 1 4 6. rewrite (lookup_nth scores i 0%Q Hi).
    destruct (np_ge (nth i scores 0%Q) score_threshold); [|apply IH].
    cbn [forallb]. unfold in_bounds at 1.
    destruct (Nat.ltb_spec i (length boxes)) as [Hb|Hb]; cbn [andb].
    + rewrite (py_index_nth boxes i [] Hb). cbn [obind].
      destruct (Nat.ltb_spec i (length classes)) as [Hc|Hc].
      * rewrite (py_index_nth classes i 0%Q Hc). cbn [obind].
        rewrite IH. destruct (forallb _ _); [|done].
        cbn [map]. by rewrite <- app_assoc.
      * unfold py_index at 1. by rewrite (lookup_ge_None_2 classes i).
    + unfold py_index at 1. by rewrite (lookup_ge_None_2 boxes i).
Qed.

End DetectLoopGeneral.

Lemma collect_value (boxes : list (list Q)) (classes scores : list Q) (thr : Q) :
  VisionProcessor.collect
    {| detection_boxes := Some boxes; detection_classes := Some classes;
       detection_scores := Some scores |} thr
  = if covered boxes classes scores thr
    then Ret (map (entry_at boxes classes scores) (kept scores thr))
    else Exc "IndexError".
Proof.
  unfold VisionProcessor.collect, covered, kept.
  cbn [detection_boxes detection_classes detection_scores from_option id].
  rewrite detect_loop_general; [done|].
  apply Forall_forall. intros i Hi. apply list_elem_of_In, in_seq in Hi. lia.
Qed.

(** Whatever the state, [detect_objects] returns [detections_of] unless the
    interrupt arrives during one of its two engine calls. *)
Lemma detect_objects_value (v : VisionProcessor.t) (s : script) (f : frame)
    (thr : Q) (st : state) :
  fst (VisionProcessor.detect_objects v s f thr st) = Ret (detections_of v s thr)
  ∨ (pending st ≠ None
     ∧ fst (VisionProcessor.detect_objects v s f thr st) = Intr).
Proof.
  unfold VisionProcessor.detect_objects, VisionProcessor.preprocess_frame,
    detections_of, bind, try_except, log, call, ret, lift, raise.
  cbn [trace pending].
  destruct (VisionProcessor.input_shape v) as [|? [|? [|? [|? [|]]]]];
    cbn [trace pending fst]; try by left.
  destruct (pending st) as [[|[|k]]|] eqn:Hp; cbn [trace pending fst];
    try by right.
  all: destruct (cv2_resize s); cbn [trace pending fst]; try by left.
  all: try by right.
  all: destruct (run_inference s) as [out|]; cbn [trace pending fst];
    try by left.
  all: pose proof (detect_loop_not_Intr (default [] (detection_boxes out))
                (default [] (detection_classes out))
                (default [] (detection_scores out)) thr
                (seq 0 (length (default [] (detection_scores out)))) []) as Hni;
    fold (VisionProcessor.collect out thr) in Hni;
    destruct (VisionProcessor.collect out thr); by left.
Qed.

(** X4.  An index error discards everything.  The arrays need not have
    the same length: when some index whose score passes the comparison with
    the threshold lies outside [detection_boxes] or [detection_classes],
    the [IndexError] it raises goes to the handler, the detections
    collected before it are dropped and the result is empty. *)
Theorem detect_objects_index_error_discards_all (self : VisionProcessor.t)
    (s : script) (frame fr : frame) (thr : Q) (st : state)
    (boxes : list (list Q)) (classes scores : list Q) (b h w c : nat)
    (i : nat) (x : Q) :
  VisionProcessor.input_shape self = [b; h; w; c] →
  cv2_resize s = Ok fr →
  run_inference s = Ok {| detection_boxes := Some boxes;
                          detection_classes := Some classes;
                          detection_scores := Some scores |} →
  pending st = None →
  scores !! i = Some x →
  np_ge x thr = true →
  (length boxes ≤ i ∨ length classes ≤ i)%nat →
  fst (VisionProcessor.detect_objects self s frame thr st) = Ret [].
Proof.
  intros Hshape Hresize Hinfer Hn Hx Hge Hout.
  destruct (detect_objects_value self s frame thr st) as [-> | [Hp _]];
    [|done].
  unfold detections_of. rewrite Hshape, Hresize, Hinfer, collect_value.
  destruct (covered boxes classes scores thr) eqn:Hcov; [|done].
  exfalso. unfold covered in Hcov.
  assert (Hi : In i (kept scores thr))
    by (apply list_elem_of_In, kept_elem; by exists x).
  apply (proj1 (forallb_forall _ _) Hcov) in Hi.
  apply andb_prop in Hi. destruct Hi as [Hi1 Hi2].
  apply Nat.ltb_lt in Hi1, Hi2. lia.
Qed.

Lemma detect_objects_index_error_discards_all_witness :
  fst (VisionProcessor.detect_objects sample_vision
         (scripted {| detection_boxes := Some [sample_box];
                      detection_classes := Some [2 # 1; 3 # 1];
                      detection_scores := Some [9 # 10; 8 # 10] |})
         sample_frame (1 # 2) (start None))
  = Ret [].
Proof.
  apply (detect_objects_index_error_discards_all sample_vision _ sample_frame
           sample_frame (1 # 2) (start None) [sample_box] [2 # 1; 3 # 1]
           [9 # 10; 8 # 10] 1 1 1 3 1 (8 # 10)); try reflexivity.
  left. cbn. lia.
Defined.

Lemma detect_loop_no_boxes (classes scores : list Q) (thr : Q)
    (range : list nat) (acc ds : list (gmap string pyval)) :
  VisionProcessor.detect_loop [] classes scores thr range acc = Ret ds →
  ds = acc.
Proof.
  revert acc. induction range as [|i range IH]; intros acc;
    cbn [VisionProcessor.detect_loop]; [congruence|].
  unfold py_index. destruct (scores !! i) as [x|]; [|done]. cbn [obind].
  destruct (np_ge x thr); [|apply IH]. by rewrite lookup_nil.
Qed.

Lemma detect_loop_no_classes (boxes : list (list Q)) (scores : list Q)
    (thr : Q) (range : list nat) (acc ds : list (gmap string pyval)) :
  VisionProcessor.detect_loop boxes [] scores thr range acc = Ret ds →
  ds = acc.
Proof.
  revert acc. induction range as [|i range IH]; intros acc;
    cbn [VisionProcessor.detect_loop]; [congruence|].
  unfold py_index. destruct (scores !! i) as [x|]; [|done]. cbn [obind].
  destruct (np_ge x thr); [|apply IH].
  destruct (boxes !! i); [|done]. cbn [obind]. by rewrite lookup_nil.
Qed.

(** X5.  When the inference output lacks one of the keys
    [detection_boxes], [detection_classes] or [detection_scores], the
    default [[]] takes its place and [detect_objects] returns no detection,
    whatever the other arrays hold. *)
Theorem detect_objects_missing_key (self : VisionProcessor.t) (s : script)
    (frame : frame) (thr : Q) (st : state) (out : outputs) :
  run_inference s = Ok out →
  detection_boxes out = None ∨ detection_classes out = None
    ∨ detection_scores out = None →
  pending st = None →
  fst (VisionProcessor.detect_objects self s frame thr st) = Ret [].
Proof.
  intros Hinfer Hmiss Hn.
  assert (Hnone : detections_of self s thr = []).
  { unfold detections_of. rewrite Hinfer.
    destruct (VisionProcessor.input_shape self) as [|? [|? [|? [|? [|]]]]];
      try done.
    destruct (cv2_resize s); [|done].
    unfold VisionProcessor.collect.
    destruct (VisionProcessor.detect_loop _ _ _ _ _ _) as [ds'| |] eqn:E;
      [|done..].
    destruct Hmiss as [Hm | [Hm | Hm]]; rewrite Hm in E;
      cbn [from_option id] in E.
    - by apply detect_loop_no_boxes in E.
    - by apply detect_loop_no_classes in E.
    - cbn in E. congruence. }
  destruct (detect_objects_value self s frame thr st) as [-> | [Hp _]];
    [by rewrite Hnone | done].
Qed.

Lemma detect_objects_missing_key_witness :
  fst (VisionProcessor.detect_objects sample_vision
         (scripted {| detection_boxes := None;
                      detection_classes := Some [2 # 1];
                      detection_scores := Some [9 # 10] |})
         sample_frame (1 # 2) (start None))
  = Ret [].
Proof.
  apply (detect_objects_missing_key sample_vision _ sample_frame (1 # 2)
           (start None)
           {| detection_boxes := None; detection_classes := Some [2 # 1];
              detection_scores := Some [9 # 10] |}).
  - reflexivity.
  - left. reflexivity.
  - reflexivity.
Defined.

Lemma filter_sublist {A} (f g : A → bool) (l : list A) :
  (∀ x, g x = true → f x = true) →
  sublist (List.filter g l) (List.filter f l).
Proof.
  intros Hgf. induction l as [|x l IH]; cbn [List.filter]; [constructor|].
  destruct (g x) eqn:Hg.
  - rewrite (Hgf x Hg). by constructor.
  - destruct (f x); [by constructor | done].
Qed.

(** X6.  Raising the threshold only removes detections: on parallel arrays
    the result for a higher threshold is a sublist (same order) of the
    result for a lower one. *)
Theorem detect_objects_threshold_monotone (self : VisionProcessor.t)
    (s : script) (frame fr : frame) (thr thr' : Q) (st : state)
    (boxes : list (list Q)) (classes scores : list Q) (b h w c : nat) :
  VisionProcessor.input_shape self = [b; h; w; c] →
  cv2_resize s = Ok fr →
  run_inference s = Ok {| detection_boxes := Some boxes;
                          detection_classes := Some classes;
                          detection_scores := Some scores |} →
  pending st = None →
  length boxes = length scores →
  length classes = length scores →
  (thr <= thr')%Q →
  ∃ low high,
    fst (VisionProcessor.detect_objects self s frame thr st) = Ret low
    ∧ fst (VisionProcessor.detect_objects self s frame thr' st) = Ret high
    ∧ sublist high low
    ∧ (length high ≤ length low ≤ length scores)%nat.
Proof.
  intros Hshape Hresize Hinfer Hn Hb Hc Hle.
  exists (map (entry_at boxes classes scores) (kept scores thr)),
    (map (entry_at boxes classes scores) (kept scores thr')).
  split; [by eapply detect_objects_parallel|].
  split; [by eapply detect_objects_parallel|].
  assert (Hsub : sublist (kept scores thr') (kept scores thr)).
  { apply filter_sublist. intros i. unfold passes.
    destruct (scores !! i) as [x|]; [|done].
    by apply np_ge_mono. }
  split; [by apply (fmap_sublist (entry_at boxes classes scores))|].
  rewrite !length_map. split; [by apply sublist_length|].
  unfold kept. etransitivity; [apply List.filter_length_le|].
  by rewrite length_seq.
Qed.

Lemma detect_objects_threshold_monotone_witness :
  ∃ low high,
    fst (VisionProcessor.detect_objects sample_vision
           (scripted two_candidates) sample_frame (1 # 5) (start None))
      = Ret low
    ∧ fst (VisionProcessor.detect_objects sample_vision
             (scripted two_candidates) sample_frame (1 # 2) (start None))
      = Ret high
    ∧ sublist high low
    ∧ (length high ≤ length low ≤ length [9 # 10; 3 # 10])%nat.
Proof.
  apply (detect_objects_threshold_monotone sample_vision
           (scripted two_candidates) sample_frame sample_frame (1 # 5) (1 # 2)
           (start None) [sample_box; sample_box] [2 # 1; 15 # 2]
           [9 # 10; 3 # 10] 1 1 1 3); try reflexivity.
  discriminate.
Defined.

(** X7.  When preprocessing fails (the model's input shape does not have
    four entries, or [cv2.resize] raises) [detect_objects] never calls
    [run_inference]: the exception re-raised by [preprocess_frame] goes
    straight to the handler, and the result is the empty list.  With a bad
    shape [cv2.resize] is not called either. *)
Theorem detect_objects_skips_inference (self : VisionProcessor.t) (s : script)
    (frame : frame) (thr : Q) (st : state) :
  length (VisionProcessor.input_shape self) ≠ 4%nat
    ∨ (∃ e, cv2_resize s = Raise e) →
  ∃ o evs st',
    VisionProcessor.detect_objects self s frame thr st = (o, st')
    ∧ trace st' = trace st ++ evs
    ∧ count is_run_inference evs = 0%nat
    ∧ (o = Ret [] ∨ o = Intr)
    ∧ (length (VisionProcessor.input_shape self) ≠ 4%nat →
       count is_resize evs = 0%nat).
Proof.
  intros Hfail.
  unfold VisionProcessor.detect_objects, VisionProcessor.preprocess_frame,
    bind, try_except, log, call, ret, lift, raise.
  cbn [trace pending].
  destruct (VisionProcessor.input_shape self) as [|? [|? [|? [|? [|]]]]];
    cbn [trace pending length] in *;
    try (eexists _, _, _; split; [reflexivity|]; split; [reflexivity|];
         repeat split; auto; fail).
  destruct Hfail as [Hlen | [e He]]; [done|]. rewrite He.
  destruct (pending st) as [[|k]|]; cbn [trace pending];
    eexists _, _, _; (split; [reflexivity|]); rewrite <- ?app_assoc;
    (split; [reflexivity|]); repeat split; auto; done.
Qed.

Lemma detect_objects_skips_inference_witness :
  ∃ o evs st',
    VisionProcessor.detect_objects
      {| VisionProcessor.camera_index := 0%nat;
         VisionProcessor.input_shape := [224; 224; 3]%nat |}
      (scripted one_obstacle) sample_frame (1 # 2) (start None) = (o, st')
    ∧ trace st' = trace (start None) ++ evs
    ∧ count is_run_inference evs = 0%nat
    ∧ (o = Ret [] ∨ o = Intr)
    ∧ (length [224; 224; 3]%nat ≠ 4%nat → count is_resize evs = 0%nat).
Proof.
  apply (detect_objects_skips_inference
           {| VisionProcessor.camera_index := 0%nat;
              VisionProcessor.input_shape := [224; 224; 3]%nat |}
           (scripted one_obstacle) sample_frame (1 # 2) (start None)).
  left. discriminate.
Defined.

Lemma scaled_pixel_in_unit_interval (p : Z) :
  (0 ≤ p ≤ 255)%Z →
  (0 <= Qdiv (inject_Z p) (inject_Z 255))%Q
  ∧ (Qdiv (inject_Z p) (inject_Z 255) <= 1)%Q.
Proof.
  intros [H0 H255]. unfold Qle, Qdiv, Qmult, Qinv, inject_Z. cbn. lia.
Qed.

(** X8.  [preprocess_frame] asks [cv2.resize] for (width, height), the third
    and second entry of the model's input shape, and returns a batch of
    exactly one frame with as many rows as the resized frame; when the
    resized frame holds 8-bit values, every value of the tensor lies in
    [[0, 1]]. *)
Theorem preprocess_frame_scales (self : VisionProcessor.t) (s : script)
    (frame fr : frame) (st : state) (b h w c : nat) :
  VisionProcessor.input_shape self = [b; h; w; c] →
  cv2_resize s = Ok fr →
  pending st = None →
  ∃ normalized st',
    VisionProcessor.preprocess_frame self s frame st = (Ret [normalized], st')
    ∧ trace st' = trace st ++ [Call (e_resize w h)]
    ∧ length normalized = length fr
    ∧ (Forall (Forall (Forall (fun p => (0 ≤ p ≤ 255)%Z))) fr →
       Forall (Forall (Forall (fun q => (0 <= q)%Q ∧ (q <= 1)%Q))) normalized).
Proof.
  intros Hshape Hresize Hn.
  unfold VisionProcessor.preprocess_frame, bind, try_except, call, ret.
  rewrite Hshape, Hresize, Hn. cbn [trace pending].
  eexists _, _. split; [reflexivity|]. cbn [trace].
  split; [reflexivity|]. split; [apply length_map|].
  intros Hfr. apply Forall_forall. intros row Hrow.
  apply list_elem_of_In, in_map_iff in Hrow. destruct Hrow as (row0 & <- & Hrow0).
  apply list_elem_of_In in Hrow0.
  pose proof (proj1 (Forall_forall _ _) Hfr _ Hrow0) as Hrow.
  apply Forall_forall. intros px Hpx.
  apply list_elem_of_In, in_map_iff in Hpx. destruct Hpx as (px0 & <- & Hpx0).
  apply list_elem_of_In in Hpx0.
  pose proof (proj1 (Forall_forall _ _) Hrow _ Hpx0) as Hpx.
  apply Forall_forall. intros q Hq.
  apply list_elem_of_In, in_map_iff in Hq. destruct Hq as (p & <- & Hp).
  apply list_elem_of_In in Hp.
  apply scaled_pixel_in_unit_interval.
  exact (proj1 (Forall_forall _ _) Hpx _ Hp).
Qed.

Lemma preprocess_frame_scales_witness :
  ∃ normalized st',
    VisionProcessor.preprocess_frame sample_vision (scripted one_obstacle)
      sample_frame (start None) = (Ret [normalized], st')
    ∧ trace st' = trace (start None) ++ [Call (e_resize 1 1)]
    ∧ length normalized = length sample_frame
    ∧ (Forall (Forall (Forall (fun p => (0 ≤ p ≤ 255)%Z))) sample_frame →
       Forall (Forall (Forall (fun q => (0 <= q)%Q ∧ (q <= 1)%Q))) normalized).
Proof.
  apply (preprocess_frame_scales sample_vision (scripted one_obstacle)
           sample_frame sample_frame (start None) 1 1 1 3); reflexivity.
Defined.

(** ** The audio gateway, beyond the claims *)

(** What [speak] does when no interrupt is pending. *)
Lemma speak_run (self : AudioProcessor.t) (s : script) (text : string)
    (st : state) :
  pending st = None →
  ∃ st',
    AudioProcessor.speak self s text st = (Ret tt, st')
    ∧ pending st' = None
    ∧ trace st'
      = trace st ++ Enter (m_speak text)
          :: (if String.eqb text "" then []
              else Call (e_say text)
                     :: match engine_say s with
                        | Ok _ => [Call e_runAndWait]
                        | Raise _ => []
                        end).
Proof.
  intros Hn.
  unfold AudioProcessor.speak, bind, try_except, log, call, ret.
  cbn [trace pending]. rewrite Hn.
  destruct (String.eqb text ""); [by eexists|].
  destruct (engine_say s); cbn [trace pending];
    [destruct (engine_runAndWait s); cbn [trace pending]|];
    eexists; (split; [reflexivity|]); (split; [reflexivity|]);
    cbn [trace]; by rewrite <- ?app_assoc.
Qed.

(** X9.  [speak] never raises.  For an empty text it calls nothing; for any
    other text it calls [say] once with that text, and [runAndWait] after it
    only when [say] did not raise. *)
Theorem speak_trace (self : AudioProcessor.t) (s : script) (text : string)
    (st : state) :
  pending st = None →
  ∃ st',
    AudioProcessor.speak self s text st = (Ret tt, st')
    ∧ pending st' = None
    ∧ trace st'
      = trace st ++ Enter (m_speak text)
          :: (if String.eqb text "" then []
              else Call (e_say text)
                     :: match engine_say s with
                        | Ok _ => [Call e_runAndWait]
                        | Raise _ => []
                        end).
Proof. intros Hn. by apply speak_run. Qed.

Lemma speak_trace_witness :
  ∃ st',
    AudioProcessor.speak sample_audio (scripted one_obstacle) "" (start None)
      = (Ret tt, st')
    ∧ pending st' = None
    ∧ trace st' = trace (start None) ++ Enter (m_speak "")
          :: (if String.eqb "" "" then []
              else Call (e_say "")
                     :: match engine_say (scripted one_obstacle) with
                        | Ok _ => [Call e_runAndWait]
                        | Raise _ => []
                        end).
Proof.
  apply (speak_trace sample_audio (scripted one_obstacle) "" (start None)).
  reflexivity.
Defined.

(** What [process_stt] does on a non-empty chunk when no interrupt is
    pending. *)
Lemma process_stt_run (self : AudioProcessor.t) (s : script)
    (b0 : Byte.byte) (data : bytes) (st : state) :
  pending st = None →
  ∃ st',
    AudioProcessor.process_stt self s (b0 :: data) st
    = (Ret match AcceptWaveform s, Result s with
           | Ok true, Ok (PyDict r) => default (PyStr "") (r !! "text")
           | _, _ => PyStr ""
           end, st')
    ∧ pending st' = None
    ∧ trace st'
      = trace st ++ Enter (m_process_stt (b0 :: data))
          :: Call (e_AcceptWaveform (b0 :: data))
          :: match AcceptWaveform s with
             | Ok true => [Call e_Result]
             | _ => []
             end.
Proof.
  intros Hn.
  unfold AudioProcessor.process_stt, bind, try_except, log, call, ret, lift.
  cbn [trace pending]. rewrite Hn.
  destruct (AcceptWaveform s) as [[]|]; cbn [trace pending];
    [destruct (Result s) as [[r|x]|]; cbn [py_get trace pending]| |];
    eexists; (split; [reflexivity|]); (split; [reflexivity|]);
    cbn [trace]; by rewrite <- ?app_assoc.
Qed.

(** X10.  On a non-empty chunk [process_stt] feeds the chunk to
    [AcceptWaveform] once.  It asks for [Result] only when the recognizer
    reports a final result, and then returns the ['text'] entry of the
    parsed result, with the empty string for a missing entry; in every
    other case (no final result, an exception of [AcceptWaveform] or of
    [Result], a result that is not a dictionary) it returns the empty
    string. *)
Theorem process_stt_result (self : AudioProcessor.t) (s : script)
    (b0 : Byte.byte) (data : bytes) (st : state) :
  pending st = None →
  ∃ st',
    AudioProcessor.process_stt self s (b0 :: data) st
    = (Ret match AcceptWaveform s, Result s with
           | Ok true, Ok (PyDict r) => default (PyStr "") (r !! "text")
           | _, _ => PyStr ""
           end, st')
    ∧ pending st' = None
    ∧ trace st'
      = trace st ++ Enter (m_process_stt (b0 :: data))
          :: Call (e_AcceptWaveform (b0 :: data))
          :: match AcceptWaveform s with
             | Ok true => [Call e_Result]
             | _ => []
             end.
Proof. intros Hn. by apply process_stt_run. Qed.

Lemma process_stt_result_witness :
  ∃ st',
    AudioProcessor.process_stt sample_audio missed_frame
      [Byte.x01; Byte.x02] (start None)
    = (Ret match AcceptWaveform missed_frame, Result missed_frame with
           | Ok true, Ok (PyDict r) => default (PyStr "") (r !! "text")
           | _, _ => PyStr ""
           end, st')
    ∧ pending st' = None
    ∧ trace st'
      = trace (start None) ++ Enter (m_process_stt [Byte.x01; Byte.x02])
          :: Call (e_AcceptWaveform [Byte.x01; Byte.x02])
          :: match AcceptWaveform missed_frame with
             | Ok true => [Call e_Result]
             | _ => []
             end.
Proof.
  apply (process_stt_result sample_audio missed_frame Byte.x01 [Byte.x02]
           (start None)).
  reflexivity.
Defined.

(** X11.  [AudioProcessor.close] never raises, but it stops at the first
    failure: [stream.close] is called only after [stop_stream] returned,
    and PyAudio is terminated only after both returned. *)
Theorem audio_close_trace (self : AudioProcessor.t) (l : lifecycle)
    (st : state) :
  pending st = None →
  ∃ st',
    AudioProcessor.close self l st = (Ret tt, st')
    ∧ pending st' = None
    ∧ trace st'
      = trace st ++ Enter m_audio_close :: Call e_stop_stream
          :: match stop_stream l, stream_close l with
             | Ok _, Ok _ => [Call e_stream_close; Call e_terminate]
             | Ok _, Raise _ => [Call e_stream_close]
             | Raise _, _ => []
             end.
Proof.
  intros Hn.
  unfold AudioProcessor.close, bind, try_except, log, call, ret.
  cbn [trace pending]. rewrite Hn.
  destruct (stop_stream l), (stream_close l), (pyaudio_terminate l);
    cbn [trace pending];
    eexists; (split; [reflexivity|]); (split; [reflexivity|]);
    cbn [trace]; by rewrite <- ?app_assoc.
Qed.

Lemma audio_close_trace_witness :
  ∃ st',
    AudioProcessor.close sample_audio sample_life (start None) = (Ret tt, st')
    ∧ pending st' = None
    ∧ trace st'
      = trace (start None) ++ Enter m_audio_close :: Call e_stop_stream
          :: match stop_stream sample_life, stream_close sample_life with
             | Ok _, Ok _ => [Call e_stream_close; Call e_terminate]
             | Ok _, Raise _ => [Call e_stream_close]
             | Raise _, _ => []
             end.
Proof.
  apply (audio_close_trace sample_audio sample_life (start None)).
  reflexivity.
Defined.

(** ** The order of events *)

Lemma emits_weaken {A} (ks ks' : list kind) (c : M A) :
  sublist ks ks' → emits ks c → emits ks' c.
Proof.
  intros Hsub Hc st o st' E. destruct (Hc _ _ _ E) as (evs & Ht & Hk).
  exists evs. split; [done | by etransitivity].
Qed.

Lemma emits_ret {A} (ks : list kind) (a : A) : emits ks (ret a).
Proof.
  intros st o st' [= <- <-]. exists []. rewrite app_nil_r.
  split; [done | apply sublist_nil_l].
Qed.

Lemma emits_raise {A} (ks : list kind) (e : string) : emits ks (@raise A e).
Proof.
  intros st o st' [= <- <-]. exists []. rewrite app_nil_r.
  split; [done | apply sublist_nil_l].
Qed.

Lemma emits_lift {A} (ks : list kind) (o : outcome A) : emits ks (lift o).
Proof.
  intros st o' st' [= <- <-]. exists []. rewrite app_nil_r.
  split; [done | apply sublist_nil_l].
Qed.

Lemma emits_log (e : event) : emits [kind_of e] (log e).
Proof. intros st o st' [= <- <-]. by exists [e]. Qed.

Lemma emits_call {A} (c : engine_method) (a : answer A) :
  emits [kind_of (Call c)] (call c a).
Proof.
  intros st o st' E. unfold call in E. exists [Call c].
  destruct (pending st) as [[|k]|]; by injection E as <- <-.
Qed.

Lemma emits_bind {A B} (ks1 ks2 : list kind) (c : M A) (k : A → M B) :
  emits ks1 c → (∀ a, emits ks2 (k a)) → emits (ks1 ++ ks2) (bind c k).
Proof.
  intros Hc Hk st o st' E. unfold bind in E.
  destruct (c st) as [[a|e|] st1] eqn:E1.
  - destruct (Hc _ _ _ E1) as (evs1 & Ht1 & Hk1).
    destruct (Hk a _ _ _ E) as (evs2 & Ht2 & Hk2).
    exists (evs1 ++ evs2). rewrite Ht2, Ht1, app_assoc. split; [done|].
    rewrite map_app. by apply sublist_app.
  - injection E as <- <-. destruct (Hc _ _ _ E1) as (evs1 & Ht1 & Hk1).
    exists evs1. split; [done|]. by apply sublist_inserts_r.
  - injection E as <- <-. destruct (Hc _ _ _ E1) as (evs1 & Ht1 & Hk1).
    exists evs1. split; [done|]. by apply sublist_inserts_r.
Qed.

(** A handler that only returns or re-raises adds nothing. *)
Lemma emits_try_except {A} (ks : list kind) (body : M A)
    (handler : string → M A) :
  emits ks body → (∀ e, emits [] (handler e)) →
  emits ks (try_except body handler).
Proof.
  intros Hb Hh st o st' E. unfold try_except in E.
  destruct (body st) as [[a|e|] st1] eqn:E1.
  - injection E as <- <-. by eapply Hb.
  - destruct (Hb _ _ _ E1) as (evs1 & Ht1 & Hk1).
    destruct (Hh e _ _ _ E) as (evs2 & Ht2 & Hk2).
    apply sublist_nil_r, map_eq_nil in Hk2. subst evs2.
    exists evs1. rewrite Ht2, Ht1, app_nil_r. done.
  - injection E as <- <-. by eapply Hb.
Qed.

Ltac emits_auto :=
  repeat lazymatch goal with
    | |- emits _ (ret _) => apply emits_ret
    | |- emits _ (raise _) => apply emits_raise
    | |- emits _ (lift _) => apply emits_lift
    | |- emits (_ :: _ :: _) (bind _ _) => apply (emits_bind [_])
    | |- emits [_] (bind _ _) => apply (emits_bind [_] [])
    | |- emits [] (bind _ _) => apply (emits_bind [] [])
    | |- emits _ (try_except _ _) => apply emits_try_except
    | |- emits _ (log _) => apply emits_log
    | |- emits _ (call _ _) => apply emits_call
    | |- emits _ (match ?x with _ => _ end) => destruct x
    | |- ∀ _, _ => intro
    end.

Lemma emits_capture_audio (a : AudioProcessor.t) (s : script) :
  emits [k_capture_audio; k_stream_read] (AudioProcessor.capture_audio a s).
Proof. unfold AudioProcessor.capture_audio. emits_auto. Qed.

Lemma emits_process_stt (a : AudioProcessor.t) (s : script) (data : bytes) :
  emits [k_process_stt; k_AcceptWaveform; k_Result]
        (AudioProcessor.process_stt a s data).
Proof. unfold AudioProcessor.process_stt. emits_auto. Qed.

Lemma emits_speak (a : AudioProcessor.t) (s : script) (text : string) :
  emits [k_speak; k_say; k_runAndWait] (AudioProcessor.speak a s text).
Proof. unfold AudioProcessor.speak. emits_auto. Qed.

Lemma emits_capture_frame (v : VisionProcessor.t) (s : script) :
  emits [k_capture_frame; k_cap_read] (VisionProcessor.capture_frame v s).
Proof. unfold VisionProcessor.capture_frame. emits_auto. Qed.

Lemma emits_preprocess_frame (v : VisionProcessor.t) (s : script) (f : frame) :
  emits [k_resize] (VisionProcessor.preprocess_frame v s f).
Proof.
  unfold VisionProcessor.preprocess_frame. cbv zeta. emits_auto.
Qed.

Lemma emits_detect_objects (v : VisionProcessor.t) (s : script) (f : frame)
    (thr : Q) :
  emits [k_detect_objects; k_resize; k_run_inference]
        (VisionProcessor.detect_objects v s f thr).
Proof.
  unfold VisionProcessor.detect_objects.
  apply (emits_bind [_]); [apply emits_log | intros _].
  apply emits_try_except; [|intros; apply emits_ret].
  apply (emits_bind [_]); [apply emits_preprocess_frame | intros _].
  emits_auto.
Qed.

Lemma emits_audio_close (a : AudioProcessor.t) (l : lifecycle) :
  emits [k_audio_close; k_stop_stream; k_stream_close; k_terminate]
        (AudioProcessor.close a l).
Proof. unfold AudioProcessor.close. emits_auto. Qed.

Lemma emits_vision_close (v : VisionProcessor.t) (l : lifecycle) :
  emits [k_vision_close; k_cap_release] (VisionProcessor.close v l).
Proof. unfold VisionProcessor.close. emits_auto. Qed.

Lemma emits_bind_yields {A B} (ks1 ks2 : list kind) (c : M A) (k : A → M B)
    (Q : A → Prop) :
  emits ks1 c → yields c Q → (∀ a, Q a → emits ks2 (k a)) →
  emits (ks1 ++ ks2) (bind c k).
Proof.
  intros Hc HQ Hk st o st' E. unfold bind in E.
  destruct (c st) as [[a|e|] st1] eqn:E1.
  - destruct (Hc _ _ _ E1) as (evs1 & Ht1 & Hk1).
    destruct (Hk a (HQ _ _ _ E1) _ _ _ E) as (evs2 & Ht2 & Hk2).
    exists (evs1 ++ evs2). rewrite Ht2, Ht1, app_assoc. split; [done|].
    rewrite map_app. by apply sublist_app.
  - injection E as <- <-. destruct (Hc _ _ _ E1) as (evs1 & Ht1 & Hk1).
    exists evs1. split; [done|]. by apply sublist_inserts_r.
  - injection E as <- <-. destruct (Hc _ _ _ E1) as (evs1 & Ht1 & Hk1).
    exists evs1. split; [done|]. by apply sublist_inserts_r.
Qed.

(** The body of the loop, for any bound on what the recognizer part emits
    given what [capture_audio] returned. *)
Lemma emits_iteration_gen (a : AudioProcessor.t) (v : VisionProcessor.t)
    (d : DecisionEngine.t) (s : script) (Q : bytes → Prop)
    (ks_stt : list kind) :
  yields (AudioProcessor.capture_audio a s) Q →
  (∀ data, Q data → emits ks_stt (AudioProcessor.process_stt a s data)) →
  emits ([k_capture_audio; k_stream_read] ++ ks_stt
         ++ [k_capture_frame; k_cap_read]
         ++ [k_detect_objects; k_resize; k_run_inference]
         ++ [k_speak; k_say; k_runAndWait] ++ [k_sleep])
        (iteration a v d s).
Proof.
  intros HQ Hstt. unfold iteration.
  apply (emits_bind_yields _ _ _ _ Q);
    [apply emits_capture_audio | done | intros data Hdata].
  apply emits_bind; [by apply Hstt | intros text].
  apply (emits_bind [k_capture_frame; k_cap_read]);
    [apply emits_capture_frame | intros [f|]]; [|apply emits_ret].
  apply (emits_bind [k_detect_objects; k_resize; k_run_inference]);
    [apply emits_detect_objects | intros ds].
  apply (emits_bind [] ([k_speak; k_say; k_runAndWait] ++ [k_sleep]));
    [apply emits_lift | intros warning].
  apply (emits_bind [k_speak; k_say; k_runAndWait] [k_sleep]);
    [|intros _; apply emits_call].
  destruct (negb _); [apply emits_speak | apply emits_ret].
Qed.

Lemma iteration_order_NoDup : NoDup iteration_order.
Proof. apply (bool_decide_unpack _). vm_compute. exact I. Qed.

Lemma shutdown_order_NoDup : NoDup shutdown_order.
Proof. apply (bool_decide_unpack _). vm_compute. exact I. Qed.

(** Events of a class none of whose kinds is in [ks] do not occur among
    events picked from [ks]. *)
Lemma count_outside (q : event → bool) (ks : list kind) (evs : list event) :
  (∀ e, q e = true → kind_of e ∉ ks) →
  sublist (map kind_of evs) ks → count q evs = 0%nat.
Proof.
  intros Hq Hsub. unfold count.
  induction evs as [|e evs IH]; [done|]. cbn [List.filter map] in *.
  destruct (q e) eqn:He.
  - destruct (Hq e He). eapply elem_of_sublist; [|exact Hsub]. by left.
  - apply IH. etransitivity; [|exact Hsub]. by apply sublist_cons.
Qed.

(** X12.  In every iteration of the loop, whatever the engines answer and
    whenever the interrupt arrives, the events follow the order of the
    program text: audio read, recognizer, camera read, resize, inference,
    speech, sleep.  No gateway method is entered twice and no engine method
    is called twice in one iteration. *)
Theorem iteration_follows_program_order (a : AudioProcessor.t)
    (v : VisionProcessor.t) (d : DecisionEngine.t) (s : script) (st : state) :
  ∃ evs, trace (snd (iteration a v d s st)) = trace st ++ evs
         ∧ sublist (map kind_of evs) iteration_order
         ∧ NoDup (map kind_of evs).
Proof.
  destruct (iteration a v d s st) as [o st'] eqn:E.
  destruct (emits_iteration_gen a v d s (fun _ => True)
              [k_process_stt; k_AcceptWaveform; k_Result]
              ltac:(done) ltac:(intros; apply emits_process_stt) _ _ _ E)
    as (evs & Ht & Hsub).
  exists evs. split; [done|]. split; [done|].
  eapply sublist_NoDup; [apply iteration_order_NoDup | exact Hsub].
Qed.

(** X13.  The [finally] block of [main] follows its order as well:
    [AudioProcessor.close] before [VisionProcessor.close], each entered at
    most once, every release call made at most once. *)
Theorem shutdown_follows_program_order (a : AudioProcessor.t)
    (v : VisionProcessor.t) (l : lifecycle) (st : state) :
  ∃ evs, trace (snd (shutdown a v l st)) = trace st ++ evs
         ∧ sublist (map kind_of evs) shutdown_order
         ∧ NoDup (map kind_of evs).
Proof.
  destruct (shutdown a v l st) as [o st'] eqn:E.
  assert (Hem : emits shutdown_order (shutdown a v l)).
  { unfold shutdown.
    apply (emits_bind [k_audio_close; k_stop_stream; k_stream_close; k_terminate]
                      [k_vision_close; k_cap_release]);
      [apply emits_audio_close | intros _; apply emits_vision_close]. }
  destruct (Hem _ _ _ E) as (evs & Ht & Hsub).
  exists evs. split; [done|]. split; [done|].
  eapply sublist_NoDup; [apply shutdown_order_NoDup | exact Hsub].
Qed.

(** ** One iteration, beyond the claims *)

Lemma capture_audio_yields_empty (a : AudioProcessor.t) (s : script)
    (e : string) :
  stream_read s = Raise e →
  yields (AudioProcessor.capture_audio a s) (eq []).
Proof.
  intros Hr st data st' E.
  unfold AudioProcessor.capture_audio, bind, try_except, log, call, ret in E.
  cbn [trace pending] in E. rewrite Hr in E.
  destruct (pending st) as [[|k]|]; [discriminate| |]; by injection E as <- _.
Qed.

(** X14.  When the audio read fails, the recognizer is left alone for that
    iteration: [capture_audio] hands the empty chunk to [process_stt], which
    returns at once, so neither [AcceptWaveform] nor [Result] is called,
    while the camera part of the iteration still runs in its order. *)
Theorem failed_audio_read_skips_recognizer (a : AudioProcessor.t)
    (v : VisionProcessor.t) (d : DecisionEngine.t) (s : script) (st : state)
    (e : string) :
  stream_read s = Raise e →
  ∃ evs, trace (snd (iteration a v d s st)) = trace st ++ evs
         ∧ count is_recognizer_call evs = 0%nat
         ∧ sublist (map kind_of evs) iteration_order.
Proof.
  intros Hr. destruct (iteration a v d s st) as [o st'] eqn:E.
  destruct (emits_iteration_gen a v d s (eq []) [k_process_stt]
              (capture_audio_yields_empty a s e Hr)) with
    (st := st) (o := o) (st' := st') as (evs & Ht & Hsub); [|done|].
  { intros data <-. unfold AudioProcessor.process_stt. emits_auto. }
  exists evs. split; [done|]. split.
  - eapply count_outside; [|exact Hsub].
    intros [[]|[]] Hq; try discriminate Hq;
      apply (bool_decide_unpack _); vm_compute; exact I.
  - etransitivity; [exact Hsub|].
    apply (sublist_app [_; _] [_; _]); [done|].
    apply sublist_skip, sublist_cons, sublist_cons. done.
Qed.

Lemma failed_audio_read_skips_recognizer_witness :
  ∃ evs,
    trace (snd (iteration sample_audio sample_vision (DecisionEngine.init None)
                  {| stream_read := Raise "OSError";
                     AcceptWaveform := Ok true;
                     Result := Ok (PyDict {[ "text" := PyStr "hello" ]});
                     engine_say := Ok tt;
                     engine_runAndWait := Ok tt;
                     cap_read := Ok (Some sample_frame);
                     cv2_resize := Ok sample_frame;
                     run_inference := Ok one_obstacle |} (start None)))
    = trace (start None) ++ evs
    ∧ count is_recognizer_call evs = 0%nat
    ∧ sublist (map kind_of evs) iteration_order.
Proof.
  apply (failed_audio_read_skips_recognizer sample_audio sample_vision
           (DecisionEngine.init None) _ (start None) "OSError").
  reflexivity.
Defined.

Lemma process_inputs_yields (d : DecisionEngine.t) (text : pyval)
    (ds : list pyobj) :
  yields (lift (DecisionEngine.process_inputs d text ds))
         (fun w => w = "" ∨ w = DecisionEngine.warning_message).
Proof.
  intros st w st' E. unfold lift in E. rewrite process_inputs_cases in E.
  injection E as <- _. destruct (py_any _ ds) as [[]| |]; auto.
Qed.

(** X15.  In no iteration, whatever the engines answer and whenever the
    interrupt arrives, does the loop enter [speak] with anything but the
    fixed warning: the recognized text is never spoken, and [speak] is
    never entered with the empty string. *)
Theorem iteration_speaks_only_the_warning (a : AudioProcessor.t)
    (v : VisionProcessor.t) (d : DecisionEngine.t) (s : script) (st : state) :
  ∃ evs, trace (snd (iteration a v d s st)) = trace st ++ evs
         ∧ count is_other_speech evs = 0%nat.
Proof.
  destruct (iteration a v d s st) as [o st'] eqn:E.
  assert (Hsteps : steps (fun e => negb (is_other_speech e))
                         (iteration a v d s)).
  { unfold iteration, AudioProcessor.capture_audio,
      AudioProcessor.process_stt, VisionProcessor.capture_frame.
    apply steps_bind; [steps_auto; done | intros data].
    apply steps_bind.
    { steps_auto; try done. apply steps_lift, py_get_not_Intr. }
    intros text. apply steps_bind; [steps_auto; done | intros [f|]];
      [|apply steps_ret].
    apply steps_bind.
    { unfold VisionProcessor.detect_objects, VisionProcessor.preprocess_frame.
      cbv zeta. steps_auto; try done. apply steps_lift, detect_loop_not_Intr. }
    intros ds.
    eapply steps_bind_yields;
      [apply steps_lift; by rewrite process_inputs_cases
      |apply process_inputs_yields |].
    intros w [-> | ->]; cbn [negb String.eqb].
    - steps_auto. done.
    - unfold AudioProcessor.speak. steps_auto; done. }
  destruct (Hsteps _ _ _ E) as [(evs & Ht & Hp) _].
  exists evs. split; [done|].
  eapply count_none; [|exact Hp]. intros e He. cbn beta in He.
  by destruct (is_other_speech e).
Qed.

Lemma run_bind {A B} (c : M A) (k : A → M B) (st st1 : state) (a : A) :
  c st = (Ret a, st1) → bind c k st = k a st1.
Proof. intros E. unfold bind. by rewrite E. Qed.

Lemma filter_outside (q : event → bool) (ks : list kind) (evs : list event) :
  (∀ e, q e = true → kind_of e ∉ ks) →
  sublist (map kind_of evs) ks → List.filter q evs = [].
Proof.
  intros Hq Hsub. apply length_zero_iff_nil.
  exact (count_outside q ks evs Hq Hsub).
Qed.

Lemma detect_objects_returns (v : VisionProcessor.t) (s : script) (f : frame)
    (thr : Q) (st : state) :
  pending st = None →
  ∃ st', VisionProcessor.detect_objects v s f thr st
         = (Ret (detections_of v s thr), st')
         ∧ pending st' = None.
Proof.
  intros Hn.
  destruct (VisionProcessor.detect_objects v s f thr st) as [o st'] eqn:E.
  destruct (detect_objects_value v s f thr st) as [Hv | [Hp _]]; [|done].
  rewrite E in Hv. cbn [fst] in Hv. subst o. exists st'. split; [done|].
  destruct (steps_detect_objects (fun _ => true) ltac:(done) v s f thr _ _ _ E)
    as [_ Hclock].
  unfold clock in Hclock. rewrite Hn in Hclock. by destruct Hclock.
Qed.

(** X16.  End to end, for an iteration with a frame and without interrupt:
    the iteration completes and sleeps once, and it enters [speak] (once,
    with the warning) exactly when one of the detections that
    [detect_objects] returns at threshold 0.5 has its class in the
    obstacle list; whatever the recognizer heard and whatever the
    synthesizer does. *)
Theorem iteration_warns_iff_obstacle (a : AudioProcessor.t)
    (v : VisionProcessor.t) (d : DecisionEngine.t) (s : script) (st : state)
    (f : frame) :
  pending st = None →
  cap_read s = Ok (Some f) →
  ∃ evs st',
    iteration a v d s st = (Ret tt, st')
    ∧ pending st' = None
    ∧ trace st' = trace st ++ evs
    ∧ List.filter is_speak evs
      = (if existsb (hits d)
              (map PyDict (detections_of v s VisionProcessor.default_score_threshold))
         then [Enter (m_speak "Warning: Obstacle ahead!")]
         else [])
    ∧ count is_sleep evs = 1%nat.
Proof.
  intros Hn Hcap.
  destruct (capture_audio_degrades a s st Hn) as (data & st1 & E1 & Hn1 & _).
  destruct (process_stt_degrades a s data st1 Hn1)
    as (text & st2 & E2 & Hn2 & _).
  destruct (capture_frame_returns v s (Some f) st2 Hn2 Hcap)
    as (r & st3 & E3 & Hn3 & <-).
  destruct (detect_objects_returns v s f
              VisionProcessor.default_score_threshold st3 Hn3)
    as (st4 & E4 & Hn4).
  destruct (emits_capture_audio a s _ _ _ E1) as (evs1 & Ht1 & Hk1).
  destruct (emits_process_stt a s data _ _ _ E2) as (evs2 & Ht2 & Hk2).
  destruct (emits_capture_frame v s _ _ _ E3) as (evs3 & Ht3 & Hk3).
  destruct (emits_detect_objects v s f _ _ _ _ E4) as (evs4 & Ht4 & Hk4).
  assert (Hquiet : ∀ ks evs, sublist (map kind_of evs) ks →
            k_speak ∉ ks → k_sleep ∉ ks →
            List.filter is_speak evs = [] ∧ count is_sleep evs = 0%nat).
  { intros ks evs Hsub Hsp Hsl. split.
    - eapply filter_outside; [|exact Hsub]. by intros [[]|[]].
    - eapply count_outside; [|exact Hsub]. by intros [[]|[]]. }
  destruct (Hquiet _ _ Hk1) as [F1 S1];
    [apply (bool_decide_unpack _); vm_compute; exact I..|].
  destruct (Hquiet _ _ Hk2) as [F2 S2];
    [apply (bool_decide_unpack _); vm_compute; exact I..|].
  destruct (Hquiet _ _ Hk3) as [F3 S3];
    [apply (bool_decide_unpack _); vm_compute; exact I..|].
  destruct (Hquiet _ _ Hk4) as [F4 S4];
    [apply (bool_decide_unpack _); vm_compute; exact I..|].
  unfold iteration.
  rewrite (run_bind _ _ _ _ _ E1), (run_bind _ _ _ _ _ E2),
    (run_bind _ _ _ _ _ E3), (run_bind _ _ _ _ _ E4).
  set (ds := detections_of v s VisionProcessor.default_score_threshold) in *.
  rewrite (process_inputs_dicts d text (map PyDict ds)).
  2:{ apply Forall_forall. intros o Ho.
      apply list_elem_of_In, in_map_iff in Ho. destruct Ho as (m & <- & _).
      by exists m. }
  unfold bind at 1. unfold lift.
  destruct (existsb (hits d) (map PyDict ds)).
  - change (negb (String.eqb DecisionEngine.warning_message "")) with true.
    cbv iota.
    destruct (speak_run a s DecisionEngine.warning_message st4 Hn4)
      as (st5 & E5 & Hn5 & Ht5).
    rewrite (run_bind _ _ _ _ _ E5). unfold call. rewrite Hn5.
    eexists _, _. split; [reflexivity|]. split; [reflexivity|].
    cbn [trace]. rewrite Ht5, Ht4, Ht3, Ht2, Ht1, <- !app_assoc.
    split; [reflexivity|].
    rewrite !List.filter_app, !count_app, F1, F2, F3, F4, S1, S2, S3, S4.
    change (String.eqb DecisionEngine.warning_message "") with false.
    cbv iota. destruct (engine_say s); split; reflexivity.
  - change (negb (String.eqb "" "")) with false. cbv iota.
    unfold bind, ret, call. rewrite Hn4.
    eexists _, _. split; [reflexivity|]. split; [reflexivity|].
    cbn [trace]. rewrite Ht4, Ht3, Ht2, Ht1, <- !app_assoc.
    split; [reflexivity|].
    rewrite !List.filter_app, !count_app, F1, F2, F3, F4, S1, S2, S3, S4.
    split; reflexivity.
Qed.

Lemma iteration_warns_iff_obstacle_witness :
  ∃ evs st',
    iteration sample_audio sample_vision (DecisionEngine.init None)
      (scripted two_candidates) (start None) = (Ret tt, st')
    ∧ pending st' = None
    ∧ trace st' = trace (start None) ++ evs
    ∧ List.filter is_speak evs
      = (if existsb (hits (DecisionEngine.init None))
              (map PyDict (detections_of sample_vision (scripted two_candidates)
                             VisionProcessor.default_score_threshold))
         then [Enter (m_speak "Warning: Obstacle ahead!")]
         else [])
    ∧ count is_sleep evs = 1%nat.
Proof.
  apply (iteration_warns_iff_obstacle sample_audio sample_vision
           (DecisionEngine.init None) (scripted two_candidates) (start None)
           sample_frame); reflexivity.
Defined.

(** ** [main], beyond the claims *)

Lemma iteration_camera_raises (a : AudioProcessor.t) (v : VisionProcessor.t)
    (d : DecisionEngine.t) (s : script) (st : state) (e : string) :
  pending st = None → cap_read s = Raise e →
  ∃ evs st', iteration a v d s st = (Exc e, st')
             ∧ pending st' = None
             ∧ trace st' = trace st ++ evs
             ∧ forallb (fun ev => negb (is_shutdown ev)) evs = true.
Proof.
  intros Hn Hcap.
  destruct (iteration a v d s st) as [o st'] eqn:E.
  destruct (steps_iteration (fun ev => negb (is_shutdown ev))
              ltac:(intros ev He _; cbn beta; by rewrite He) a v d s ltac:(done) _ _ _ E)
    as [(evs & Ht & Hp) Hclock].
  unfold clock in Hclock. rewrite Hn in Hclock. destruct Hclock as [Hn' _].
  exists evs, st'. split; [|done].
  f_equal. revert E.
  destruct (capture_audio_degrades a s st Hn) as (data & st1 & E1 & Hn1 & _).
  destruct (process_stt_degrades a s data st1 Hn1)
    as (text & st2 & E2 & Hn2 & _).
  unfold iteration.
  rewrite (run_bind _ _ _ _ _ E1), (run_bind _ _ _ _ _ E2).
  unfold VisionProcessor.capture_frame, bind, log, call.
  cbn [trace pending]. rewrite Hn2, Hcap. by intros [= <- _].
Qed.

Lemma while_True_camera_exception (a : AudioProcessor.t)
    (v : VisionProcessor.t) (d : DecisionEngine.t) (ws : nat → script)
    (e : string) :
  ∀ n fuel k0 st,
    (∀ m, (k0 ≤ m < k0 + n)%nat → ∃ r, cap_read (ws m) = Ok r) →
    cap_read (ws (k0 + n)%nat) = Raise e →
    pending st = None → (n < fuel)%nat →
    ∃ evs st',
      while_True fuel (fun i => iteration a v d (ws i)) k0 st
      = (Some (RaisedExc e), st')
      ∧ pending st' = None
      ∧ trace st' = trace st ++ evs
      ∧ forallb (fun ev => negb (is_shutdown ev)) evs = true.
Proof.
  induction n as [|n IH]; intros fuel k0 st Hok Hraise Hn Hlt;
    (destruct fuel as [|fuel]; [lia|]); cbn [while_True].
  - rewrite Nat.add_0_r in Hraise.
    destruct (iteration_camera_raises a v d (ws k0) st e Hn Hraise)
      as (evs & st' & -> & Hn' & Ht & Hp).
    by exists evs, st'.
  - destruct (Hok k0 ltac:(lia)) as [r Hr].
    destruct (iteration a v d (ws k0) st) as [o st1] eqn:E.
    destruct (steps_iteration (fun ev => negb (is_shutdown ev))
                ltac:(intros ev He _; cbn beta; by rewrite He) a v d (ws k0) ltac:(done) _ _ _ E)
      as [(evs1 & Ht1 & Hp1) Hclock].
    unfold clock in Hclock. rewrite Hn in Hclock.
    destruct Hclock as [Hn1 Hni].
    pose proof (contained_iteration a v d (ws k0) r Hr _ _ _ E) as Hne.
    destruct o as [[]|e'|]; [|by destruct (Hne e') | done].
    destruct (IH fuel (Datatypes.S k0) st1) as (evs2 & st2 & -> & Hn2 & Ht2 & Hp2);
      [intros m Hm; apply Hok; lia
      |by replace (Datatypes.S k0 + n)%nat with (k0 + Datatypes.S n)%nat by lia
      |done | lia |].
    exists (evs1 ++ evs2), st2. split; [done|]. split; [done|].
    rewrite Ht2, Ht1, app_assoc. split; [done|].
    by rewrite forallb_app, Hp1, Hp2.
Qed.

Lemma shutdown_result (a : AudioProcessor.t) (v : VisionProcessor.t)
    (l : lifecycle) (st : state) :
  pending st = None →
  fst (shutdown a v l st)
  = match cap_release l with Ok _ => Ret tt | Raise e => Exc e end.
Proof.
  intros Hn.
  unfold shutdown, AudioProcessor.close, VisionProcessor.close, bind,
    try_except, log, call, ret.
  cbn [trace pending]. rewrite Hn.
  by destruct (stop_stream l), (stream_close l), (pyaudio_terminate l),
    (cap_release l).
Qed.

(** X17.  An exception that leaves the loop body (the camera's [read]
    raising in iteration [n], the earlier reads having answered) is logged
    and swallowed by [main]: the [finally] block enters both [close()]
    methods once, and [main] returns normally unless [cap.release] itself
    raises; failures inside [AudioProcessor.close] never show. *)
Theorem main_survives_loop_exception (w : world) (shape : list nat)
    (n fuel : nat) (e : string) :
  AudioProcessor_init (life w) = Ok tt →
  VisionProcessor_init (life w) = Ok shape →
  (∀ m, (m < n)%nat → ∃ r, cap_read (scripts w m) = Ok r) →
  cap_read (scripts w n) = Raise e →
  (n < fuel)%nat →
  ∃ st,
    main w fuel (start None)
    = (Some match cap_release (life w) with
            | Ok _ => Ret tt
            | Raise e' => Exc e'
            end, st)
    ∧ count is_audio_close (trace st) = 1%nat
    ∧ count is_vision_close (trace st) = 1%nat.
Proof.
  intros Ha Hv Hok Hraise Hlt. unfold main. rewrite Ha, Hv.
  set (a := {| AudioProcessor.rate := 16000; AudioProcessor.chunk_size := 4000 |}).
  set (v := {| VisionProcessor.camera_index := 0%nat;
               VisionProcessor.input_shape := shape |}).
  set (d := DecisionEngine.init (Some [1; 2; 3])).
  destruct (while_True_camera_exception a v d (scripts w) e n fuel 0%nat
              (start None))
    as (evs & st1 & -> & Hn1 & Ht1 & Hp1);
    [intros m Hm; apply Hok; lia | done | done | done |].
  pose proof (shutdown_result a v (life w) st1 Hn1) as Hres.
  destruct (shutdown_once a v (life w) st1 Hn1)
    as (o & evs2 & st2 & Hs & Ht2 & Hn2 & _ & Hc1 & Hc2 & _).
  rewrite Hs in Hres |- *. cbn [fst] in Hres. subst o.
  exists st2. split; [done|].
  rewrite Ht2, Ht1. cbn [start trace app]. rewrite !count_app, Hc1, Hc2.
  assert (H0 : ∀ p, (∀ ev, p ev = true → is_shutdown ev = true) →
                 count p evs = 0%nat).
  { intros p Hp. eapply count_none; [|exact Hp1].
    intros ev. by apply loop_event_not_shutdown. }
  rewrite (H0 is_audio_close) by (by intros [[]|[]]).
  rewrite (H0 is_vision_close) by (by intros [[]|[]]).
  done.
Qed.

Lemma main_survives_loop_exception_witness :
  ∃ st,
    main {| life := sample_life;
            scripts := fun i => match i with
                                | 2%nat => camera_fault
                                | _ => scripted one_obstacle
                                end |} 5 (start None)
    = (Some match cap_release sample_life with
            | Ok _ => Ret tt
            | Raise e' => Exc e'
            end, st)
    ∧ count is_audio_close (trace st) = 1%nat
    ∧ count is_vision_close (trace st) = 1%nat.
Proof.
  apply (main_survives_loop_exception
           {| life := sample_life;
              scripts := fun i => match i with
                                  | 2%nat => camera_fault
                                  | _ => scripted one_obstacle
                                  end |}
           [1; 1; 1; 3]%nat 2 5 "cv2.error").
  - reflexivity.
  - reflexivity.
  - intros [|[|m]] Hm; [by eexists..|lia].
  - reflexivity.
  - lia.
Defined.

(** X18.  An interrupt that arrives inside [AudioProcessor.close] (the
    loop having been left by an exception before) passes through its
    [except Exception] and out of the [finally] block:
    [VisionProcessor.close] is never entered and the camera is not
    released. *)
Theorem shutdown_interrupted_skips_camera (a : AudioProcessor.t)
    (v : VisionProcessor.t) (l : lifecycle) (st : state) (k : nat) :
  pending st = Some k → (k ≤ 2)%nat →
  stop_stream l = Ok tt → stream_close l = Ok tt →
  ∃ evs st',
    shutdown a v l st = (Intr, st')
    ∧ trace st' = trace st ++ evs
    ∧ count is_vision_close evs = 0%nat
    ∧ count is_cap_release evs = 0%nat.
Proof.
  intros Hk Hle Hstop Hclose.
  unfold shutdown, AudioProcessor.close, VisionProcessor.close, bind,
    try_except, log, call, ret.
  cbn [trace pending]. rewrite Hk, Hstop, Hclose.
  destruct k as [|[|[|k]]]; [| | |lia]; cbn [trace pending];
    eexists _, _; (split; [reflexivity|]); rewrite <- ?app_assoc;
    (split; [reflexivity|]); split; reflexivity.
Qed.

Lemma shutdown_interrupted_skips_camera_witness :
  ∃ evs st',
    shutdown sample_audio sample_vision sample_life (start (Some 1%nat))
    = (Intr, st')
    ∧ trace st' = trace (start (Some 1%nat)) ++ evs
    ∧ count is_vision_close evs = 0%nat
    ∧ count is_cap_release evs = 0%nat.
Proof.
  apply (shutdown_interrupted_skips_camera sample_audio sample_vision
           sample_life (start (Some 1%nat)) 1); (reflexivity || lia).
Defined.

(** ** The constructors *)

(** X19.  [VisionProcessor.__init__] makes its calls in a fixed order and
    stops at the first failure.  It succeeds exactly when the camera
    opens, the DLC file exists and SNPE loads it, and then carries the
    shape SNPE reports.  A camera that is not opened gives [IOError]
    before the file is even looked for; a missing file gives [ValueError]
    after the camera was opened, and SNPE is not touched. *)
Theorem VisionProcessor_init_checks (u : vision_startup)
    (dlc_file runtime : string) (camera_index : nat) :
  snd (VisionProcessor__init__ u dlc_file runtime camera_index [])
    `prefix_of` [ s_VideoCapture camera_index; s_isOpened;
                  s_path_exists dlc_file; s_SNPE runtime;
                  s_load_dlc dlc_file; s_get_input_shape ]
  ∧ (∀ vp, fst (VisionProcessor__init__ u dlc_file runtime camera_index [])
           = Ok vp
           ↔ VideoCapture u = Ok tt ∧ isOpened u = Ok true
             ∧ path_exists u = Ok true ∧ SNPE u = Ok tt
             ∧ load_dlc u = Ok tt
             ∧ get_input_shape u = Ok (VisionProcessor.input_shape vp)
             ∧ VisionProcessor.camera_index vp = camera_index)
  ∧ (VideoCapture u = Ok tt → isOpened u = Ok false →
     VisionProcessor__init__ u dlc_file runtime camera_index []
     = (Raise "IOError", [s_VideoCapture camera_index; s_isOpened]))
  ∧ (VideoCapture u = Ok tt → isOpened u = Ok true →
     path_exists u = Ok false →
     VisionProcessor__init__ u dlc_file runtime camera_index []
     = (Raise "ValueError",
        [s_VideoCapture camera_index; s_isOpened; s_path_exists dlc_file])).
Proof.
  unfold VisionProcessor__init__, sbind, scall, sraise, sret.
  split; [|split; [|split]].
  - destruct (VideoCapture u) as [[]|]; cbn;
      [|by eexists].
    destruct (isOpened u) as [[]|]; cbn; [|by eexists..].
    destruct (path_exists u) as [[]|]; cbn; [|by eexists..].
    destruct (SNPE u) as [[]|]; cbn; [|by eexists].
    destruct (load_dlc u) as [[]|]; cbn; [|by eexists].
    destruct (get_input_shape u); cbn; by eexists.
  - intros [ci shape].
    destruct (VideoCapture u) as [[]|]; cbn; [|intuition congruence].
    destruct (isOpened u) as [[]|]; cbn; [|intuition congruence..].
    destruct (path_exists u) as [[]|]; cbn; [|intuition congruence..].
    destruct (SNPE u) as [[]|]; cbn; [|intuition congruence].
    destruct (load_dlc u) as [[]|]; cbn; [|intuition congruence].
    destruct (get_input_shape u); cbn; intuition congruence.
  - by intros -> ->.
  - by intros -> -> ->.
Qed.

(** X20.  [AudioProcessor.__init__] acquires the speech engine, the
    recognizer model and the input stream in this order and stops at the
    first failure, re-raising it.  It succeeds exactly when all six calls
    return; a stream that cannot be opened leaves [start_stream] uncalled,
    and nothing that was acquired before is given back. *)
Theorem AudioProcessor_init_stages (u : audio_startup) (model_path : string)
    (rate chunk_size : Z) :
  snd (AudioProcessor__init__ u model_path rate chunk_size [])
    `prefix_of` [ s_pyttsx3_init; s_Model model_path; s_KaldiRecognizer rate;
                  s_PyAudio; s_open rate chunk_size; s_start_stream ]
  ∧ (∀ ap, fst (AudioProcessor__init__ u model_path rate chunk_size [])
           = Ok ap
           ↔ pyttsx3_init u = Ok tt ∧ Model u = Ok tt
             ∧ KaldiRecognizer u = Ok tt ∧ PyAudio u = Ok tt
             ∧ pyaudio_open u = Ok tt ∧ start_stream u = Ok tt
             ∧ ap = {| AudioProcessor.rate := rate;
                       AudioProcessor.chunk_size := chunk_size |})
  ∧ (∀ e, pyttsx3_init u = Ok tt → Model u = Ok tt →
          KaldiRecognizer u = Ok tt → PyAudio u = Ok tt →
          pyaudio_open u = Raise e →
     AudioProcessor__init__ u model_path rate chunk_size []
     = (Raise e, [ s_pyttsx3_init; s_Model model_path;
                   s_KaldiRecognizer rate; s_PyAudio;
                   s_open rate chunk_size ])).
Proof.
  unfold AudioProcessor__init__, sbind, stry, scall, sraise, sret.
  split; [|split].
  - destruct (pyttsx3_init u) as [[]|]; cbn; [|by eexists].
    destruct (Model u) as [[]|]; cbn; [|by eexists].
    destruct (KaldiRecognizer u) as [[]|]; cbn; [|by eexists].
    destruct (PyAudio u) as [[]|]; cbn; [|by eexists].
    destruct (pyaudio_open u) as [[]|]; cbn; [|by eexists].
    destruct (start_stream u) as [[]|]; cbn; by eexists.
  - intros ap.
    destruct (pyttsx3_init u) as [[]|]; cbn; [|intuition congruence].
    destruct (Model u) as [[]|]; cbn; [|intuition congruence].
    destruct (KaldiRecognizer u) as [[]|]; cbn; [|intuition congruence].
    destruct (PyAudio u) as [[]|]; cbn; [|intuition congruence].
    destruct (pyaudio_open u) as [[]|]; cbn; [|intuition congruence].
    destruct (start_stream u) as [[]|]; cbn; intuition congruence.
  - by intros e -> -> -> -> ->.
Qed.

(** X21.  The constructors run before the [try] of [main]: when one of
    them raises, [main] raises the same exception at once.  The state is
    untouched: the loop is not entered and no [close()] runs, also when
    [AudioProcessor] had already been constructed and only
    [VisionProcessor] failed. *)
Theorem main_aborts_on_failed_constructor (au : audio_startup)
    (vu : vision_startup) (l : lifecycle) (ws : nat → script) (fuel : nat)
    (st : state) (e : string) :
  fst (AudioProcessor__init__ au "model" 16000 4000 []) = Raise e
  ∨ ((∃ ap, fst (AudioProcessor__init__ au "model" 16000 4000 []) = Ok ap)
     ∧ fst (VisionProcessor__init__ vu "model.dlc" "GPU" 0 []) = Raise e) →
  main {| life := constructed au vu l; scripts := ws |} fuel st
  = (Some (Exc e), st).
Proof.
  intros [Ha | [[ap Ha] Hv]]; unfold main, constructed;
    cbn [life AudioProcessor_init VisionProcessor_init]; rewrite Ha; [done|].
  by rewrite Hv.
Qed.

Lemma main_aborts_on_failed_constructor_witness :
  main {| life := constructed
                    {| pyttsx3_init := Ok tt; Model := Ok tt;
                       KaldiRecognizer := Ok tt; PyAudio := Ok tt;
                       pyaudio_open := Ok tt; start_stream := Ok tt |}
                    {| VideoCapture := Ok tt; isOpened := Ok false;
                       path_exists := Ok false; SNPE := Ok tt;
                       load_dlc := Ok tt; get_input_shape := Ok [] |}
                    sample_life;
          scripts := fun _ => scripted one_obstacle |} 3 (start None)
  = (Some (Exc "IOError"), start None).
Proof.
  apply (main_aborts_on_failed_constructor _ _ sample_life
           (fun _ => scripted one_obstacle) 3 (start None) "IOError").
  right. split; [by eexists | reflexivity].
Defined.

(** ** The stand-alone loops *)

(** X22.  The loop at the end of [vision.py] sleeps in every iteration,
    also when the frame is missed: whatever the camera answers, an
    iteration without interrupt returns and its last event, and only that
    one, is the call of [time.sleep(0.1)]. *)
Theorem vision_standalone_always_sleeps (v : VisionProcessor.t) (s : script)
    (st : state) (r : option frame) :
  pending st = None →
  cap_read s = Ok r →
  ∃ evs st',
    vision_standalone_iteration v s st = (Ret tt, st')
    ∧ trace st' = trace st ++ evs ++ [Call (e_sleep (1 # 10))]
    ∧ count is_sleep evs = 0%nat.
Proof.
  intros Hn Hcap.
  destruct (capture_frame_returns v s r st Hn Hcap)
    as (r' & st1 & E1 & Hn1 & <-).
  destruct (emits_capture_frame v s _ _ _ E1) as (evs1 & Ht1 & Hk1).
  assert (S1 : count is_sleep evs1 = 0%nat).
  { eapply count_outside; [|exact Hk1].
    intros [[]|[]] Hq; try discriminate Hq;
      apply (bool_decide_unpack _); vm_compute; exact I. }
  unfold vision_standalone_iteration.
  rewrite (run_bind _ _ _ _ _ E1).
  destruct r as [f|].
  - destruct (detect_objects_returns v s f
                VisionProcessor.default_score_threshold st1 Hn1)
      as (st2 & E2 & Hn2).
    destruct (emits_detect_objects v s f _ _ _ _ E2) as (evs2 & Ht2 & Hk2).
    assert (S2 : count is_sleep evs2 = 0%nat).
    { eapply count_outside; [|exact Hk2].
      intros [[]|[]] Hq; try discriminate Hq;
        apply (bool_decide_unpack _); vm_compute; exact I. }
    unfold bind at 1. rewrite (run_bind _ _ _ _ _ E2).
    unfold ret, call. rewrite Hn2.
    exists (evs1 ++ evs2). eexists. split; [reflexivity|].
    cbn [trace]. rewrite Ht2, Ht1, <- !app_assoc. split; [done|].
    by rewrite count_app, S1, S2.
  - unfold bind, ret, call. rewrite Hn1.
    exists evs1. eexists. split; [reflexivity|].
    cbn [trace]. rewrite Ht1, <- !app_assoc. done.
Qed.

Lemma vision_standalone_always_sleeps_witness :
  ∃ evs st',
    vision_standalone_iteration sample_vision missed_frame (start None)
    = (Ret tt, st')
    ∧ trace st' = trace (start None) ++ evs ++ [Call (e_sleep (1 # 10))]
    ∧ count is_sleep evs = 0%nat.
Proof.
  apply (vision_standalone_always_sleeps sample_vision missed_frame
           (start None) None); reflexivity.
Defined.

(** X23.  The loop at the end of [audio.py] echoes what it heard: when the
    recognizer returns a non-empty text, the iteration enters [speak] once,
    with ["I heard "] followed by that text, and then sleeps (the loop of
    [main.py] never speaks the text). *)
Theorem audio_standalone_echoes (a : AudioProcessor.t) (s : script)
    (st : state) (b0 : Byte.byte) (data : bytes) (r : gmap string pyval)
    (heard : string) :
  pending st = None →
  stream_read s = Ok (b0 :: data) →
  AcceptWaveform s = Ok true →
  Result s = Ok (PyDict r) →
  r !! "text" = Some (PyStr heard) →
  heard ≠ "" →
  ∃ evs st',
    audio_standalone_iteration a s st = (Ret tt, st')
    ∧ trace st' = trace st ++ evs
    ∧ List.filter is_speak evs
      = [Enter (m_speak (String.append "I heard " heard))]
    ∧ count is_sleep evs = 1%nat.
Proof.
  intros Hn Hread Hacc Hres Htext Hne.
  assert (E1 : ∃ st1, AudioProcessor.capture_audio a s st
                      = (Ret (b0 :: data), st1)
                      ∧ pending st1 = None
                      ∧ trace st1 = trace st ++ [Enter m_capture_audio;
                          Call (e_stream_read (AudioProcessor.chunk_size a))]).
  { unfold AudioProcessor.capture_audio, bind, try_except, log, call, ret.
    cbn [trace pending]. rewrite Hn, Hread. eexists. split; [done|].
    cbn [trace pending]. by rewrite <- app_assoc. }
  destruct E1 as (st1 & E1 & Hn1 & Ht1).
  destruct (process_stt_run a s b0 data st1 Hn1) as (st2 & E2 & Hn2 & Ht2).
  rewrite Hacc, Hres, Htext in E2. rewrite Hacc in Ht2.
  cbn [from_option id] in E2.
  assert (Hb : py_bool (PyStr heard) = true).
  { cbn. destruct (String.eqb_spec heard ""); [done | reflexivity]. }
  destruct (speak_run a s (String.append "I heard " heard) st2 Hn2)
    as (st3 & E3 & Hn3 & Ht3).
  unfold audio_standalone_iteration.
  rewrite (run_bind _ _ _ _ _ E1), (run_bind _ _ _ _ _ E2), Hb.
  cbn [py_concat_str]. unfold bind at 1. unfold bind at 1. unfold lift.
  rewrite E3. unfold call. rewrite Hn3.
  eexists _, _. split; [reflexivity|]. cbn [trace].
  rewrite Ht3, Ht2, Ht1, <- !app_assoc. split; [reflexivity|].
  cbn [String.append String.eqb Ascii.eqb Bool.eqb andb].
  destruct (engine_say s); split; reflexivity.
Qed.

Lemma audio_standalone_echoes_witness :
  ∃ evs st',
    audio_standalone_iteration sample_audio (scripted one_obstacle)
      (start None) = (Ret tt, st')
    ∧ trace st' = trace (start None) ++ evs
    ∧ List.filter is_speak evs
      = [Enter (m_speak (String.append "I heard " "hello"))]
    ∧ count is_sleep evs = 1%nat.
Proof.
  apply (audio_standalone_echoes sample_audio (scripted one_obstacle)
           (start None) Byte.x01 [Byte.x02] {[ "text" := PyStr "hello" ]}
           "hello"); (reflexivity || discriminate).
Defined.
